(** * setup-go with differentiated cache: restore phase and save phase

    A shallow embedding of [src/main.js] (the restore phase, run at job
    start) and [src/post.js] (the save phase, run at job end), with the
    properties of the cache-key derivation and of the write-back policy.

    JavaScript strings are modelled by Rocq strings holding the UTF-8
    encoding of their text: concatenation, [===], [split('\n')],
    [filter(Boolean)] and [substring] on ASCII data coincide on that
    representation.  The services the two scripts call ([@actions/core],
    [@actions/cache], [@actions/exec], [fs], [path], [process]) are a
    record of answers, the [World]; every call with an effect is recorded
    in a trace of events. *)

From Stdlib Require Import ZArith NArith List Bool Lia.
From Stdlib.Strings Require Import String Ascii Byte.
From stdpp Require Import base option list strings gmap.

Local Open Scope string_scope.
Local Open Scope list_scope.

(** ** SHA-256 (FIPS 180-4), as computed by [crypto.createHash('sha256')] *)

Module SHA256.
Local Open Scope Z_scope.

Definition w32 (x : Z) : Z := x mod 2 ^ 32.
Definition add32 (x y : Z) : Z := w32 (x + y).
Definition not32 (x : Z) : Z := Z.lxor x 0xffffffff.
Definition rotr (n x : Z) : Z :=
  Z.lor (Z.shiftr x n) (w32 (Z.shiftl x (32 - n))).
Definition shr (n x : Z) : Z := Z.shiftr x n.

Definition Ch (x y z : Z) : Z := Z.lxor (Z.land x y) (Z.land (not32 x) z).
Definition Maj (x y z : Z) : Z :=
  Z.lxor (Z.lxor (Z.land x y) (Z.land x z)) (Z.land y z).
Definition Sigma0 (x : Z) : Z :=
  Z.lxor (Z.lxor (rotr 2 x) (rotr 13 x)) (rotr 22 x).
Definition Sigma1 (x : Z) : Z :=
  Z.lxor (Z.lxor (rotr 6 x) (rotr 11 x)) (rotr 25 x).
Definition sigma0 (x : Z) : Z :=
  Z.lxor (Z.lxor (rotr 7 x) (rotr 18 x)) (shr 3 x).
Definition sigma1 (x : Z) : Z :=
  Z.lxor (Z.lxor (rotr 17 x) (rotr 19 x)) (shr 10 x).

(** The constants are defined as FIPS 180-4 defines them: the first 32
    bits of the fractional parts of the cube roots (for [K]) and of the
    square roots (for [H0]) of the first primes. *)
Definition is_prime (n : nat) : bool :=
  forallb (fun d => negb (Nat.eqb (Nat.modulo n d) 0)) (seq 2 (n - 2)).

Definition primes : list Z :=
  map Z.of_nat (List.filter is_prime (seq 2 310)).

(** The integer cube root, one bit at a time from bit [bits - 1] down. *)
Fixpoint icbrt_from (bits : nat) (n r : Z) : Z :=
  match bits with
  | O => r
  | S b =>
      let r' := r + 2 ^ Z.of_nat b in
      icbrt_from b n (if r' * r' * r' <=? n then r' else r)
  end.

Definition icbrt (n : Z) : Z := icbrt_from 40 n 0.

Definition K : list Z :=
  Eval vm_compute in map (fun p => icbrt (p * 2 ^ 96) mod 2 ^ 32) primes.

Definition H0 : list Z :=
  Eval vm_compute in map (fun p => Z.sqrt (p * 2 ^ 64) mod 2 ^ 32) (firstn 8 primes).

(** Padding: a 1 bit, zeros up to 56 mod 64 bytes, the bit length on 64 bits. *)
Definition be_bytes (n : nat) (x : Z) : list Z :=
  map (fun i => (x / 2 ^ (8 * Z.of_nat i)) mod 256) (rev (seq 0 n)).

Definition pad (msg : list Z) : list Z :=
  let len := Z.of_nat (length msg) in
  msg ++ [0x80] ++ repeat 0 (Z.to_nat ((55 - len) mod 64)) ++ be_bytes 8 (8 * len).

Fixpoint be_words (bs : list Z) : list Z :=
  match bs with
  | a :: b :: c :: d :: rest =>
      (((a * 256 + b) * 256 + c) * 256 + d) :: be_words rest
  | _ => []
  end.

Fixpoint chunks (n : nat) (ws : list Z) : list (list Z) :=
  match n with
  | O => []
  | S n' =>
      match ws with
      | [] => []
      | _ => firstn 16 ws :: chunks n' (skipn 16 ws)
      end
  end.

(** The message schedule W_0 .. W_63 of one block. *)
Fixpoint schedule (n : nat) (w : list Z) : list Z :=
  match n with
  | O => w
  | S n' =>
      let t := length w in
      let wt := add32 (add32 (sigma1 (nth (t - 2) w 0)) (nth (t - 7) w 0))
                      (add32 (sigma0 (nth (t - 15) w 0)) (nth (t - 16) w 0)) in
      schedule n' (w ++ [wt])
  end.

Record regs := Regs { ra : Z; rb : Z; rc : Z; rd : Z; re : Z; rf : Z; rg : Z; rh : Z }.

Definition round (r : regs) (kw : Z * Z) : regs :=
  let t1 := add32 (add32 (add32 (rh r) (Sigma1 (re r)))
                         (add32 (Ch (re r) (rf r) (rg r)) (fst kw))) (snd kw) in
  let t2 := add32 (Sigma0 (ra r)) (Maj (ra r) (rb r) (rc r)) in
  Regs (add32 t1 t2) (ra r) (rb r) (rc r) (add32 (rd r) t1) (re r) (rf r) (rg r).

Definition regs_of (h : list Z) : regs :=
  Regs (nth 0 h 0) (nth 1 h 0) (nth 2 h 0) (nth 3 h 0)
       (nth 4 h 0) (nth 5 h 0) (nth 6 h 0) (nth 7 h 0).

Definition list_of (r : regs) : list Z :=
  [ra r; rb r; rc r; rd r; re r; rf r; rg r; rh r].

Definition compress (h : list Z) (block : list Z) : list Z :=
  let w := schedule 48 block in
  let r := fold_left round (combine K w) (regs_of h) in
  map (fun p => add32 (fst p) (snd p)) (combine h (list_of r)).

Definition digest (msg : list Z) : list Z :=
  let ws := be_words (pad msg) in
  let h := fold_left compress (chunks (length ws) ws) H0 in
  flat_map (be_bytes 4) h.

End SHA256.

(** ** Bytes, hexadecimal and UTF-8 *)

Definition Z_of_byte (b : byte) : Z := Z.of_N (Byte.to_N b).

Definition byte_of_Z (z : Z) : byte :=
  match Byte.of_N (Z.to_N z) with Some b => b | None => x00 end.

Definition hex_digit (n : Z) : ascii :=
  nth (Z.to_nat n)
      ["0"; "1"; "2"; "3"; "4"; "5"; "6"; "7";
       "8"; "9"; "a"; "b"; "c"; "d"; "e"; "f"]%char "0"%char.

(** [.digest('hex')]: two lowercase digits per byte. *)
Fixpoint hex (bs : list Z) : string :=
  match bs with
  | [] => ""
  | b :: rest =>
      String (hex_digit (b / 16)) (String (hex_digit (b mod 16)) (hex rest))
  end%Z.

Definition sha256_hex (bs : list byte) : string :=
  hex (SHA256.digest (map Z_of_byte bs)).

(** The WHATWG UTF-8 decoder, which [buffer.toString('utf8')] follows: a
    state machine over the bytes; an ill-formed sequence becomes U+FFFD
    and the byte that broke it is decoded again from the initial state. *)
Inductive dstate : Type :=
  | Start
  | Cont (needed : nat) (acc lo hi : Z).

Definition first_byte (b : Z) : dstate * list Z :=
  (if b <=? 0x7F then (Start, [b])
   else if (0xC2 <=? b) && (b <=? 0xDF) then (Cont 1 (b - 0xC0) 0x80 0xBF, [])
   else if (0xE0 <=? b) && (b <=? 0xEF) then
     (Cont 2 (b - 0xE0) (if b =? 0xE0 then 0xA0 else 0x80)
                        (if b =? 0xED then 0x9F else 0xBF), [])
   else if (0xF0 <=? b) && (b <=? 0xF4) then
     (Cont 3 (b - 0xF0) (if b =? 0xF0 then 0x90 else 0x80)
                        (if b =? 0xF4 then 0x8F else 0xBF), [])
   else (Start, [0xFFFD]))%Z.

Definition decode_step (st : dstate) (b : Z) : dstate * list Z :=
  match st with
  | Start => first_byte b
  | Cont n acc lo hi =>
      if ((lo <=? b) && (b <=? hi))%Z then
        let acc' := (acc * 64 + (b - 0x80))%Z in
        match n with
        | S (S n') => (Cont (S n') acc' 0x80%Z 0xBF%Z, [])
        | _ => (Start, [acc'])
        end
      else
        let '(st', out) := first_byte b in (st', 0xFFFD%Z :: out)
  end.

Fixpoint decode_from (st : dstate) (bs : list byte) : list Z :=
  match bs with
  | [] => match st with Start => [] | Cont _ _ _ _ => [0xFFFD%Z] end
  | b :: rest =>
      let '(st', out) := decode_step st (Z_of_byte b) in
      out ++ decode_from st' rest
  end.

Definition utf8_decode (bs : list byte) : list Z := decode_from Start bs.

Definition encode_cp (cp : Z) : list byte :=
  (if cp <? 0x80 then [byte_of_Z cp]
   else if cp <? 0x800 then
     [byte_of_Z (0xC0 + cp / 64); byte_of_Z (0x80 + cp mod 64)]
   else if cp <? 0x10000 then
     [byte_of_Z (0xE0 + cp / 4096); byte_of_Z (0x80 + (cp / 64) mod 64);
      byte_of_Z (0x80 + cp mod 64)]
   else
     [byte_of_Z (0xF0 + cp / 262144); byte_of_Z (0x80 + (cp / 4096) mod 64);
      byte_of_Z (0x80 + (cp / 64) mod 64); byte_of_Z (0x80 + cp mod 64)])%Z.

Definition utf8_encode (cps : list Z) : list byte := flat_map encode_cp cps.

(** Unicode scalar values: code points outside the surrogate range. *)
Definition scalar (cp : Z) : Prop :=
  (0 <= cp < 0xD800 \/ 0xE000 <= cp < 0x110000)%Z.

(** A byte sequence is well-formed UTF-8 when it encodes scalar values. *)
Definition valid_utf8 (bs : list byte) : Prop :=
  exists cps : list Z, Forall scalar cps /\ bs = utf8_encode cps.

(** ** JavaScript string primitives *)

Module JS.

Definition LF : ascii := "010"%char.
Definition nl : string := String LF "".

Definition dquote : string := String (ascii_of_nat 34) "".

(** A string is truthy when it is not empty. *)
Definition truthy (s : string) : bool := negb (String.eqb s "").

(** [a || d] on strings. *)
Definition or_str (a d : string) : string := if truthy a then a else d.

(** [a || b] where [a] and [b] are [string | undefined]. *)
Definition or_undef (a b : option string) : option string :=
  match a with
  | Some s => if truthy s then Some s else b
  | None => b
  end.

(** [a || d] where [a] is [string | undefined] and [d] a string. *)
Definition or_else (a : option string) (d : string) : string :=
  match a with
  | Some s => or_str s d
  | None => d
  end.

(** [s.split('\n')] *)
Fixpoint split_nl (s : string) : list string :=
  match s with
  | EmptyString => [""]
  | String c rest =>
      if Ascii.eqb c LF then "" :: split_nl rest
      else match split_nl rest with
           | h :: t => String c h :: t
           | [] => [String c ""]
           end
  end.

(** No line feed occurs in the string. *)
Fixpoint nl_free (s : string) : bool :=
  match s with
  | EmptyString => true
  | String c rest => negb (Ascii.eqb c LF) && nl_free rest
  end.

(** [xs.filter(Boolean)] on an array of strings. *)
Definition filter_Boolean (xs : list string) : list string :=
  List.filter truthy xs.

(** [xs.join('\n')] *)
Definition join_nl (xs : list string) : string := String.concat nl xs.

(** [s.replace('\n', r)]: a string pattern replaces its first occurrence only. *)
Fixpoint replace_nl (r : string) (s : string) : string :=
  match s with
  | EmptyString => ""
  | String c rest =>
      if Ascii.eqb c LF then r +:+ rest else String c (replace_nl r rest)
  end.

(** [b.toString()] *)
Definition bool_toString (b : bool) : string := if b then "true" else "false".

(** [s.substring(0, n)] *)
Definition substring0 (n : nat) (s : string) : string := String.substring 0 n s.

(** [buffer.toString('utf8')], as [fs.readFileSync(p, 'utf8')] returns it. *)
Definition toString_utf8 (raw : list byte) : string :=
  string_of_list_byte (utf8_encode (utf8_decode raw)).

(** [createHash('sha256').update(s).digest('hex')]: a string is hashed
    through its UTF-8 encoding. *)
Definition sha256_hex_of_string (s : string) : string :=
  sha256_hex (list_byte_of_string s).

(** *** The two regular expressions of [main.js] *)

Definition is_digit_or_dot (c : ascii) : bool :=
  let n := N_of_ascii c in ((48 <=? n) && (n <=? 57) || (n =? 46))%N.

(** The longest prefix in [[0-9.]] and what follows it. *)
Fixpoint span_version (s : string) : string * string :=
  match s with
  | String c rest =>
      if is_digit_or_dot c then
        let '(v, r) := span_version rest in (String c v, r)
      else ("", s)
  | EmptyString => ("", "")
  end.

Definition ascii_ws (c : ascii) : bool :=
  let n := N_of_ascii c in ((9 <=? n) && (n <=? 13) || (n =? 32))%N.

Definition byte_is (c : ascii) (n : N) : bool := (N_of_ascii c =? n)%N.

Definition byte_in (c : ascii) (lo hi : N) : bool :=
  ((lo <=? N_of_ascii c) && (N_of_ascii c <=? hi))%N.

(** [\s*]: white space is TAB, LF, VT, FF, CR, SP and, in UTF-8, U+00A0,
    U+1680, U+2000..U+200A, U+2028, U+2029, U+202F, U+205F, U+3000, U+FEFF. *)
Fixpoint skip_ws (s : string) : string :=
  match s with
  | String c s1 =>
      if ascii_ws c then skip_ws s1
      else
        match s1 with
        | String c1 s2 =>
            if byte_is c 0xC2 && byte_is c1 0xA0 then skip_ws s2
            else
              match s2 with
              | String c2 s3 =>
                  if byte_is c 0xE1 && byte_is c1 0x9A && byte_is c2 0x80
                     || byte_is c 0xE2 && byte_is c1 0x80
                        && (byte_in c2 0x80 0x8A || byte_in c2 0xA8 0xA9
                            || byte_is c2 0xAF)
                     || byte_is c 0xE2 && byte_is c1 0x81 && byte_is c2 0x9F
                     || byte_is c 0xE3 && byte_is c1 0x80 && byte_is c2 0x80
                     || byte_is c 0xEF && byte_is c1 0xBB && byte_is c2 0xBF
                  then skip_ws s3
                  else s
              | EmptyString => s
              end
        | EmptyString => s
        end
  | EmptyString => ""
  end.

Definition strip_prefix (p s : string) : option string :=
  if String.prefix p s
  then Some (String.substring (String.length p) (String.length s - String.length p) s)
  else None.

(** [go([0-9.]+)] matched at the head of [s]: the capture group. *)
Definition go_version_here (s : string) : option string :=
  match strip_prefix "go" s with
  | Some r => let '(v, _) := span_version r in if truthy v then Some v else None
  | None => None
  end.

(** [go\s+([0-9.]+)] matched at the head of [s]: the capture group. *)
Definition go_directive_here (s : string) : option string :=
  match strip_prefix "go" s with
  | Some r =>
      let r' := skip_ws r in
      if (String.length r' <? String.length r)%nat then
        let '(v, _) := span_version r' in if truthy v then Some v else None
      else None
  | None => None
  end.

(** [s.match(/go([0-9.]+)/)?.[1]]: the leftmost match. *)
Fixpoint match_go_version (s : string) : option string :=
  match go_version_here s with
  | Some v => Some v
  | None =>
      match s with
      | String _ rest => match_go_version rest
      | EmptyString => None
      end
  end.

(** With the [m] flag, [^] matches at the start of the input and after a
    line terminator: LF, CR, U+2028, U+2029. *)
Definition after_terminator (p3 p2 p1 : ascii) : bool :=
  byte_is p1 10 || byte_is p1 13
  || byte_is p3 0xE2 && byte_is p2 0x80 && byte_in p1 0xA8 0xA9.

Fixpoint scan_go_directive (bol : bool) (p3 p2 : ascii) (s : string) : option string :=
  match (if bol then go_directive_here s else None) with
  | Some v => Some v
  | None =>
      match s with
      | String c rest => scan_go_directive (after_terminator p3 p2 c) p2 c rest
      | EmptyString => None
      end
  end.

(** [s.match(/^go\s+([0-9.]+)/m)], then [[1]]. *)
Definition match_go_directive (s : string) : option string :=
  scan_go_directive true "000"%char "000"%char s.

End JS.

(** ** Effects: a trace of calls and thrown errors *)

(** The calls with an effect outside the script, in the order made. *)
Inductive Event : Type :=
  | Info (msg : string)                          (* core.info / core.debug *)
  | Warning (msg : string)                       (* core.warning *)
  | SetFailed (msg : string)                     (* core.setFailed *)
  | SetOutput (name value : string)              (* core.setOutput *)
  | SaveState (name value : string)              (* core.saveState *)
  | AddPath (p : string)                         (* core.addPath *)
  | ExportVariable (name value : string)         (* core.exportVariable *)
  | Exec (cmd : string) (args : list string)     (* exec.exec, exec.getExecOutput *)
  | Mkdir (p : string)                           (* fs.mkdirSync *)
  | Unlink (p : string)                          (* fs.unlinkSync *)
  | ReadFile (p : string)                        (* fs.readFileSync *)
  | RestoreCache (paths : list string) (key : string) (restoreKeys : list string)
  | SaveCache (paths : list string) (key : string).

(** A computation yields its trace and either the message of the [Error]
    it threw or its value.  What the services throw are [Error] objects,
    and the handlers of the two scripts read nothing but [error.message]. *)
Definition M (A : Type) : Type := list Event * (string + A).

Definition ret {A} (a : A) : M A := ([], inr a).

Definition bind {A B} (m : M A) (f : A -> M B) : M B :=
  match m with
  | (t, inl e) => (t, inl e)
  | (t, inr a) => let '(t', r) := f a in (t ++ t', r)
  end.

Definition emit (e : Event) : M unit := ([e], inr tt).

Definition throw {A} (msg : string) : M A := ([], inl msg).

(** [try { m } catch (error) { h error.message }] *)
Definition try_catch {A} (m : M A) (h : string -> M A) : M A :=
  match m with
  | (t, inl e) => let '(t', r) := h e in (t ++ t', r)
  | (t, inr a) => (t, inr a)
  end.

(** A call that throws when the world answers with an error message. *)
Definition attempt (e : Event) (failure : option string) : M unit :=
  bind (emit e) (fun _ => match failure with Some msg => throw msg | None => ret tt end).

Notation "'do' x <- m ; k" := (bind m (fun x => k))
  (at level 10, x name, m at level 100, k at level 200).

Definition trace {A} (m : M A) : list Event := fst m.
Definition outcome {A} (m : M A) : string + A := snd m.

(** A property of every event a computation emits. *)
Definition emits {A} (P : Event -> Prop) (m : M A) : Prop := Forall P (trace m).

(** A computation that can only complete when [Q] holds. *)
Definition completes_only_if {A} (Q : Prop) (m : M A) : Prop :=
  forall a, outcome m = inr a -> Q.

(** The events of lines 30 to 116 of [main.js]: none of them touches the
    session state, the cache or the failure signal. *)
Definition setup_event (e : Event) : Prop :=
  match e with
  | Info _ | ReadFile _ | Mkdir _ | Unlink _ | Exec _ _
  | AddPath _ | ExportVariable _ _ => True
  | SetOutput name _ => name = "go-version"
  | _ => False
  end.

(** Logging and file reads. *)
Definition log_event (e : Event) : Prop :=
  match e with
  | Info _ | Warning _ | ReadFile _ => True
  | _ => False
  end.

(** ** The world the scripts run in *)

Record World : Type := {
  (* core.getInput(name): the trimmed value, empty when not supplied;
     action.yml declares go-version-file, cache-dependency-path,
     working-directory and job-name *)
  input : string -> string;
  (* github.context *)
  context_job : string;
  context_ref : string;
  (* process *)
  env : string -> option string;
  platform : string;
  arch : string;
  (* path, which depends on the platform *)
  path_join : list string -> string;
  path_resolve : list string -> string;
  path_dirname : string -> string;
  (* fs; [Some msg] and [inl msg] are thrown errors *)
  existsSync : string -> bool;
  readFileSync : string -> string + list byte;
  mkdirSync : string -> option string;
  unlinkSync : string -> option string;
  (* @actions/exec *)
  exec : string -> list string -> option string;
  getExecOutput : string -> list string -> string + string;
  (* @actions/cache *)
  restoreCache : list string -> string -> list string -> string + option string;
  saveCache : list string -> string -> option string
}.

(** The same world with one more input supplied. *)
Definition set_input (w : World) (name value : string) : World :=
  {| input := fun n => if String.eqb n name then value else input w n;
     context_job := context_job w;
     context_ref := context_ref w;
     env := env w;
     platform := platform w;
     arch := arch w;
     path_join := path_join w;
     path_resolve := path_resolve w;
     path_dirname := path_dirname w;
     existsSync := existsSync w;
     readFileSync := readFileSync w;
     mkdirSync := mkdirSync w;
     unlinkSync := unlinkSync w;
     exec := exec w;
     getExecOutput := getExecOutput w;
     restoreCache := restoreCache w;
     saveCache := saveCache w |}.

(** [core.getInput(name, { required: true })] *)
Definition getInput_required (w : World) (name : string) : M string :=
  if JS.truthy (input w name) then ret (input w name)
  else throw ("Input required and not supplied: " +:+ name).

(** [path.join(a, ...rest)] where [a] is [string | undefined]: a [TypeError]
    when it is undefined. *)
Definition path_join_from (w : World) (a : option string) (rest : list string) : M string :=
  match a with
  | Some s => ret (path_join w (s :: rest))
  | None =>
      throw ("The " +:+ JS.dquote +:+ "path" +:+ JS.dquote
             +:+ " argument must be of type string. Received undefined")
  end.

(** [fs.readFileSync(p, 'utf8')] *)
Definition readFile_utf8 (w : World) (p : string) : M string :=
  do _ <- emit (ReadFile p);
  match readFileSync w p with
  | inl msg => throw msg
  | inr raw => ret (JS.toString_utf8 raw)
  end.

(** The session state a trace leaves behind, read by [core.getState]. *)
Definition record_state (st : gmap string string) (e : Event) : gmap string string :=
  match e with
  | SaveState name value => <[name := value]> st
  | _ => st
  end.

Definition state_of (t : list Event) : gmap string string :=
  fold_left record_state t ∅.

Definition record_output (out : gmap string string) (e : Event) : gmap string string :=
  match e with
  | SetOutput name value => <[name := value]> out
  | _ => out
  end.

Definition outputs_of (t : list Event) : gmap string string :=
  fold_left record_output t ∅.

Definition is_SetFailed (e : Event) : bool :=
  match e with SetFailed _ => true | _ => false end.

Definition is_Warning (e : Event) : bool :=
  match e with Warning _ => true | _ => false end.

Definition is_SaveCache (e : Event) : bool :=
  match e with SaveCache _ _ => true | _ => false end.

Definition is_ReadFile (e : Event) : bool :=
  match e with ReadFile _ => true | _ => false end.

Definition is_RestoreCache (e : Event) : bool :=
  match e with RestoreCache _ _ _ => true | _ => false end.

Definition is_SaveState (e : Event) : bool :=
  match e with SaveState _ _ => true | _ => false end.

(** The job fails when [core.setFailed] was called. *)
Definition job_failed (t : list Event) : bool := existsb is_SetFailed t.

Definition save_calls (t : list Event) : list Event := List.filter is_SaveCache t.
Definition warnings (t : list Event) : list Event := List.filter is_Warning t.
Definition files_read (t : list Event) : list Event := List.filter is_ReadFile t.
Definition restore_calls (t : list Event) : list Event := List.filter is_RestoreCache t.

(** ** [src/main.js]: the restore phase *)

Module Main.

Definition getFileHash (w : World) (filePath : string) : M string :=
  try_catch
    (do content <- readFile_utf8 w filePath;
     ret (JS.substring0 8 (JS.sha256_hex_of_string content)))
    (fun message =>
       do _ <- emit (Warning ("Could not read " +:+ filePath +:+ ": " +:+ message));
       ret "missing").

Definition buildRestoreKeys (runneros goVersion jobName goSumHash : string) : string :=
  JS.join_nl
    [ "golang-" +:+ runneros +:+ "-" +:+ goVersion +:+ "-" +:+ jobName +:+ "-" +:+ goSumHash;
      "golang-" +:+ runneros +:+ "-" +:+ goVersion +:+ "-" +:+ jobName;
      "golang-" +:+ runneros +:+ "-" +:+ goVersion;
      "golang-" +:+ runneros ].

(** [process.env.HOME || process.env.USERPROFILE] *)
Definition home (w : World) : option string :=
  JS.or_undef (env w "HOME") (env w "USERPROFILE").

(** The primary key, the template of line 122. *)
Definition primaryKey (runner installedVersion jobName goSumHash : string) : string :=
  "golang-" +:+ runner +:+ "-" +:+ installedVersion +:+ "-" +:+ jobName +:+ "-" +:+ goSumHash.

(** [restoreKeys.split('\n').filter(Boolean)], line 140. *)
Definition restoreKeysArray (runner installedVersion jobName goSumHash : string) : list string :=
  JS.filter_Boolean (JS.split_nl (buildRestoreKeys runner installedVersion jobName goSumHash)).

(** [restoredKey === cacheKey] *)
Definition strict_eq (restoredKey : option string) (cacheKey : string) : bool :=
  match restoredKey with
  | Some k => String.eqb k cacheKey
  | None => false
  end.

Definition truthy_key (restoredKey : option string) : bool :=
  match restoredKey with
  | Some k => JS.truthy k
  | None => false
  end.

(** Lines 30 to 116 of [run]: the inputs and the Go toolchain.  It yields
    [workingDirectory], [jobName] and [installedVersion]. *)
Definition install (w : World) : M (string * string * string) :=
  do goVersionFile <- getInput_required w "go-version-file";
  if negb (JS.truthy goVersionFile) then throw "go-version-file input is required" else
  let workingDirectory := JS.or_str (input w "working-directory") "." in
  let jobName := JS.or_str (input w "job-name") (context_job w) in
  if negb (existsSync w workingDirectory) then
    throw ("Working directory does not exist: " +:+ workingDirectory)
  else
  do _ <- emit (Info ("Setting up Go with version file: " +:+ goVersionFile));
  do _ <- emit (Info ("Working directory: " +:+ workingDirectory));
  do _ <- emit (Info ("Job name: " +:+ jobName));
  do _ <- emit (Info "Setting up Go...");
  let goModPath := path_resolve w [workingDirectory; goVersionFile] in
  if negb (existsSync w goModPath) then
    throw ("Go version file not found: " +:+ goModPath)
  else
  do goModContent <- readFile_utf8 w goModPath;
  match JS.match_go_directive goModContent with
  | None => throw ("Could not find Go version in " +:+ goVersionFile)
  | Some goVersion =>
  do _ <- emit (Info ("Found Go version " +:+ goVersion +:+ " in " +:+ goVersionFile));
  let win32 := String.eqb (platform w) "win32" in
  let arch := if String.eqb (arch w) "x64" then "amd64" else arch w in
  let osName := if win32 then "windows"
                else if String.eqb (platform w) "darwin" then "darwin" else "linux" in
  let ext := if win32 then "zip" else "tar.gz" in
  let goUrl := "https://dl.google.com/go/go" +:+ goVersion +:+ "." +:+ osName
               +:+ "-" +:+ arch +:+ "." +:+ ext in
  do goRoot <- path_join_from w (home w) ["go-install"; goVersion];
  let goBin := path_join w [goRoot; "bin"; if win32 then "go.exe" else "go"] in
  do _ <-
    (if negb (existsSync w goBin) then
       do _ <- emit (Info ("Installing Go " +:+ goVersion +:+ " to " +:+ goRoot));
       let parent := path_dirname w goRoot in
       do _ <- attempt (Mkdir parent) (mkdirSync w parent);
       let downloadPath :=
         path_join w [JS.or_else (env w "RUNNER_TEMP") "/tmp";
                      "go" +:+ goVersion +:+ "." +:+ ext] in
       let curl := ["-L"; "-o"; downloadPath; goUrl] in
       do _ <- attempt (Exec "curl" curl) (exec w "curl" curl);
       let unpack := if String.eqb ext "tar.gz"
                     then ("tar", ["-xzf"; downloadPath; "-C"; parent])
                     else ("unzip", [downloadPath; "-d"; parent]) in
       do _ <- attempt (Exec (fst unpack) (snd unpack)) (exec w (fst unpack) (snd unpack));
       let mv := [path_join w [parent; "go"]; goRoot] in
       do _ <- attempt (Exec "mv" mv) (exec w "mv" mv);
       attempt (Unlink downloadPath) (unlinkSync w downloadPath)
     else ret tt);
  do _ <- emit (AddPath (path_join w [goRoot; "bin"]));
  do _ <- emit (ExportVariable "GOROOT" goRoot);
  do _ <- emit (Exec "go" ["version"]);
  match getExecOutput w "go" ["version"] with
  | inl message => throw message
  | inr stdout =>
  match JS.match_go_version stdout with
  | None => throw "Failed to verify Go installation"
  | Some installedVersion =>
  do _ <- emit (Info ("Go version: " +:+ installedVersion));
  do _ <- emit (SetOutput "go-version" installedVersion);
  ret (workingDirectory, jobName, installedVersion)
  end end end.

(** Lines 118 to 163 of [run]: the cache step. *)
Definition cacheStep (w : World) (workingDirectory jobName installedVersion : string) : M unit :=
  let runner := JS.or_else (env w "RUNNER_OS") "Linux" in
  let goSumPath := path_join w [workingDirectory; "go.sum"] in
  do goSumHash <- getFileHash w goSumPath;
  let cacheKey := primaryKey runner installedVersion jobName goSumHash in
  let cachePathsString := JS.join_nl ["~/.cache/go-build"; "~/go/pkg/mod"] in
  do _ <- emit (Info ("Cache key: " +:+ cacheKey));
  do _ <- emit (Info ("Cache paths: " +:+ JS.replace_nl ", " cachePathsString));
  do _ <- emit (Info "Restoring Go cache...");
  do buildDir <- path_join_from w (home w) [".cache"; "go-build"];
  do modDir <- path_join_from w (home w) ["go"; "pkg"; "mod"];
  let cachePaths := [buildDir; modDir] in
  let restoreKeysArray := restoreKeysArray runner installedVersion jobName goSumHash in
  (* [let cacheHit = false; let restoredKey = null;] keep their initial
     value when [restoreCache] throws *)
  do result <-
    try_catch
      (do _ <- emit (RestoreCache cachePaths cacheKey restoreKeysArray);
       match restoreCache w cachePaths cacheKey restoreKeysArray with
       | inl message => throw message
       | inr restoredKey =>
           let cacheHit := strict_eq restoredKey cacheKey in
           do _ <- emit (Info ("Cache restore result: "
                               +:+ if truthy_key restoredKey then "hit" else "miss"));
           do _ <- (if truthy_key restoredKey
                    then emit (Info ("Restored cache key: " +:+ default "" restoredKey))
                    else ret tt);
           ret (cacheHit, restoredKey)
       end)
      (fun message =>
         do _ <- emit (Warning ("Cache restore failed: " +:+ message));
         ret (false, None));
  let cacheHit := fst result in
  do _ <- emit (SaveState "cache-key" cacheKey);
  do _ <- emit (SaveState "cache-paths" (JS.join_nl cachePaths));
  do _ <- emit (SaveState "cache-hit" (JS.bool_toString cacheHit));
  do _ <- emit (SetOutput "cache-hit" (JS.bool_toString cacheHit));
  emit (Info ("Cache operation completed. Hit: " +:+ JS.bool_toString cacheHit)).

Definition run (w : World) : M unit :=
  try_catch
    (do r <- install w;
     let '(workingDirectory, jobName, installedVersion) := r in
     cacheStep w workingDirectory jobName installedVersion)
    (fun message => emit (SetFailed ("Action failed: " +:+ message))).

(** What the cache step computes on its way, as functions of the world:
    the content fingerprint, the primary key, the restore key list, the
    payload directories and the answer of the artifact store.  Lemma
    [run_shape] shows that they are the arguments and the values of the
    calls [run] makes. *)
Definition goSumHash (w : World) (workingDirectory : string) : string :=
  match outcome (getFileHash w (path_join w [workingDirectory; "go.sum"])) with
  | inr h => h
  | inl _ => "missing"
  end.

Definition cacheKey (w : World) (workingDirectory jobName installedVersion : string) : string :=
  primaryKey (JS.or_else (env w "RUNNER_OS") "Linux") installedVersion jobName
             (goSumHash w workingDirectory).

Definition restoreKeys (w : World) (workingDirectory jobName installedVersion : string)
    : list string :=
  restoreKeysArray (JS.or_else (env w "RUNNER_OS") "Linux") installedVersion jobName
                   (goSumHash w workingDirectory).

Definition cachePaths (w : World) : list string :=
  match home w with
  | Some h => [path_join w [h; ".cache"; "go-build"]; path_join w [h; "go"; "pkg"; "mod"]]
  | None => []
  end.

Definition restored (w : World) (workingDirectory jobName installedVersion : string)
    : string + option string :=
  restoreCache w (cachePaths w)
    (cacheKey w workingDirectory jobName installedVersion)
    (restoreKeys w workingDirectory jobName installedVersion).

(** [cacheHit] as the cache step leaves it. *)
Definition cacheHit (w : World) (workingDirectory jobName installedVersion : string) : bool :=
  match restored w workingDirectory jobName installedVersion with
  | inr restoredKey =>
      strict_eq restoredKey (cacheKey w workingDirectory jobName installedVersion)
  | inl _ => false
  end.

(** What the cache step logs between the store call and the session state. *)
Definition restore_log (w : World) (workingDirectory jobName installedVersion : string)
    : list Event :=
  match restored w workingDirectory jobName installedVersion with
  | inr restoredKey =>
      Info ("Cache restore result: " +:+ if truthy_key restoredKey then "hit" else "miss")
      :: (if truthy_key restoredKey
          then [Info ("Restored cache key: " +:+ default "" restoredKey)]
          else [])
  | inl message => [Warning ("Cache restore failed: " +:+ message)]
  end.

End Main.

(** ** [src/post.js]: the save phase *)

Module Post.

(** [core.getState(name)]: the empty string when nothing was saved. *)
Definition getState (st : gmap string string) (name : string) : string :=
  default "" (st !! name).

Definition run (w : World) (st : gmap string string) : M unit :=
  try_catch
    (let ref := context_ref w in
     do _ <- emit (Info ("Current ref: " +:+ ref));
     if negb (String.eqb ref "refs/heads/master") then
       emit (Info "Not on master branch, skipping cache save")
     else
     let cacheHit := String.eqb (getState st "cache-hit") "true" in
     do _ <- emit (Info ("Cache hit: " +:+ JS.bool_toString cacheHit));
     if cacheHit then
       emit (Info "Cache was hit, skipping cache save")
     else
     let cacheKey := getState st "cache-key" in
     let cachePaths := getState st "cache-paths" in
     if negb (JS.truthy cacheKey) || negb (JS.truthy cachePaths) then
       emit (Warning "Cache configuration not found in state, skipping save")
     else
     do _ <- emit (Info ("Saving cache with key: " +:+ cacheKey));
     do _ <- emit (Info ("Cache paths: " +:+ JS.replace_nl ", " cachePaths));
     try_catch
       (let paths := JS.filter_Boolean (JS.split_nl cachePaths) in
        do _ <- emit (Info "Saving cache...");
        do _ <- attempt (SaveCache paths cacheKey) (saveCache w paths cacheKey);
        emit (Info "Cache saved successfully"))
       (fun message => emit (Warning ("Cache save failed: " +:+ message))))
    (fun message => emit (Warning ("Post action failed: " +:+ message))).

End Post.

(** ** A concrete job, to run the two phases on *)

Module Demo.

(** [path.join] on a POSIX runner, for segments without [..] or slashes
    to normalise: [.] segments vanish. *)
Definition posix_join (parts : list string) : string :=
  match List.filter (fun p => negb (String.eqb p ".")) parts with
  | [] => "."
  | ps => String.concat "/" ps
  end.

(** [path.dirname] of a path without a trailing slash. *)
Fixpoint parent_of (s : string) : option string :=
  match s with
  | EmptyString => None
  | String c rest =>
      match parent_of rest with
      | Some d => Some (String c d)
      | None => if Ascii.eqb c "/" then Some "" else None
      end
  end.

Definition posix_dirname (s : string) : string :=
  match parent_of s with
  | Some EmptyString => "/"
  | Some d => d
  | None => "."
  end.

(** [path.resolve] from the working directory [/work]. *)
Definition posix_resolve (parts : list string) : string :=
  posix_join ("/work" :: parts).

Definition go_mod : list byte :=
  list_byte_of_string ("module example.com/app" +:+ JS.nl +:+ JS.nl +:+ "go 1.22" +:+ JS.nl).

Definition go_sum : list byte :=
  list_byte_of_string ("example.com/dep v1.0.0 h1:abc=" +:+ JS.nl).

(** A Linux runner; [installed] tells whether the Go binary is there
    already, [restored] is the answer of [cache.restoreCache], [saved] that
    of [cache.saveCache], [files] the readable files, [home_dir] the value
    of [HOME] and [ref] the source-control ref. *)
Definition runner (installed : bool) (inputs : string -> string) (home_dir : string)
    (ref : string) (files : string -> string + list byte)
    (restored : string + option string) (saved : option string) : World :=
  {| input := inputs;
     context_job := "build";
     context_ref := ref;
     env := fun name =>
              if String.eqb name "HOME" then Some home_dir
              else if String.eqb name "RUNNER_OS" then Some "Linux"
              else None;
     platform := "linux";
     arch := "x64";
     path_join := posix_join;
     path_resolve := posix_resolve;
     path_dirname := posix_dirname;
     existsSync := fun p =>
                     if String.eqb p (posix_join [home_dir; "go-install"; "1.22"; "bin"; "go"])
                     then installed else true;
     readFileSync := files;
     mkdirSync := fun _ => None;
     unlinkSync := fun _ => None;
     exec := fun _ _ => None;
     getExecOutput := fun _ _ => inr "go version go1.22.0 linux/amd64";
     restoreCache := fun _ _ _ => restored;
     saveCache := fun _ _ => saved |}.

Definition inputs (name : string) : string :=
  if String.eqb name "go-version-file" then "go.mod"
  else if String.eqb name "cache-dependency-path" then "deps/go.sum"
  else "".

Definition files (p : string) : string + list byte :=
  if String.eqb p "/work/go.mod" then inr go_mod
  else if String.eqb p "go.sum" then inr go_sum
  else inl ("ENOENT: no such file or directory, open '" +:+ p +:+ "'").

Definition master : string := "refs/heads/master".

Definition world := runner true.

(** The first job of a runner: Go is downloaded and unpacked. *)
Definition fresh : World :=
  runner false inputs "/home/runner" master files (inr None) None.

(** The job whose restore finds nothing. *)
Definition miss : World :=
  world inputs "/home/runner" master files (inr None) None.

(** The job whose restore finds the primary key. *)
Definition exact : World :=
  world inputs "/home/runner" master files
        (inr (Some "golang-Linux-1.22.0-build-7b1d1d3b")) None.

(** The job whose restore finds the second fallback key. *)
Definition fallback : World :=
  world inputs "/home/runner" master files (inr (Some "golang-Linux-1.22.0-build")) None.

(** The job whose artifact store is down, at restore and at save. *)
Definition outage : World :=
  world inputs "/home/runner" master files
        (inl "Cache service responded with 503") (Some "Cache service responded with 503").

(** The same job on a feature branch. *)
Definition feature : World :=
  world inputs "/home/runner" "refs/heads/feature" files (inr None) None.

(** A job whose [go.sum] is the single byte FF, which is not UTF-8. *)
Definition latin1_files (p : string) : string + list byte :=
  if String.eqb p "/work/go.mod" then inr go_mod
  else if String.eqb p "go.sum" then inr [xff]
  else inl ("ENOENT: no such file or directory, open '" +:+ p +:+ "'").

Definition latin1 : World :=
  world inputs "/home/runner" master latin1_files (inr None) None.

(** A job without [go.sum]. *)
Definition no_sum_files (p : string) : string + list byte :=
  if String.eqb p "/work/go.mod" then inr go_mod
  else inl ("ENOENT: no such file or directory, open '" +:+ p +:+ "'").

Definition no_sum : World :=
  world inputs "/home/runner" master no_sum_files (inr None) None.

(** A job whose home directory has a line feed in its name. *)
Definition odd_home : string := "/home/ci" +:+ JS.nl +:+ "runner".

Definition odd : World :=
  world inputs odd_home master files (inr None) None.

(** The session state a restore phase hands to the save phase of its job. *)
Definition handoff (w : World) : gmap string string :=
  state_of (trace (Main.run w)).

End Demo.

(** ** Further vocabulary for the properties below *)

(** Every character of a string satisfies a test. *)
Fixpoint all_chars (P : ascii -> bool) (s : string) : bool :=
  match s with
  | EmptyString => true
  | String c rest => P c && all_chars P rest
  end.

(** A lowercase hexadecimal digit. *)
Definition is_lower_hex (c : ascii) : bool :=
  let n := N_of_ascii c in
  ((48 <=? n) && (n <=? 57) || (97 <=? n) && (n <=? 102))%N.

(** A directory or a key as the artifact store expects one: not empty and
    on one line. *)
Definition clean (s : string) : Prop := s <> "" /\ JS.nl_free s = true.

(** The events of lines 118 to 167 of [main.js]. *)
Definition cache_event (e : Event) : Prop :=
  match e with
  | Info _ | Warning _ | ReadFile _ | RestoreCache _ _ _ | SaveState _ _
  | SetFailed _ => True
  | SetOutput name _ => name = "cache-hit"
  | _ => False
  end.

(** The events of [post.js]. *)
Definition post_event (e : Event) : Prop :=
  match e with
  | Info _ | Warning _ | SaveCache _ _ => True
  | _ => False
  end.

(** The events by which [main.js] downloads and unpacks Go. *)
Definition download_event (e : Event) : bool :=
  match e with
  | Mkdir _ | Unlink _ => true
  | Exec cmd _ => negb (String.eqb cmd "go")
  | _ => false
  end.


Module Jobs.

(** The same world with another file system. *)
Definition with_existsSync (w : World) (probe : string -> bool) : World :=
  {| input := input w;
     context_job := context_job w;
     context_ref := context_ref w;
     env := env w;
     platform := platform w;
     arch := arch w;
     path_join := path_join w;
     path_resolve := path_resolve w;
     path_dirname := path_dirname w;
     existsSync := probe;
     readFileSync := readFileSync w;
     mkdirSync := mkdirSync w;
     unlinkSync := unlinkSync w;
     exec := exec w;
     getExecOutput := getExecOutput w;
     restoreCache := restoreCache w;
     saveCache := saveCache w |}.


(** The same world with another answer of [exec.exec]. *)
Definition with_exec (w : World) (run : string -> list string -> option string) : World :=
  {| input := input w;
     context_job := context_job w;
     context_ref := context_ref w;
     env := env w;
     platform := platform w;
     arch := arch w;
     path_join := path_join w;
     path_resolve := path_resolve w;
     path_dirname := path_dirname w;
     existsSync := existsSync w;
     readFileSync := readFileSync w;
     mkdirSync := mkdirSync w;
     unlinkSync := unlinkSync w;
     exec := run;
     getExecOutput := getExecOutput w;
     restoreCache := restoreCache w;
     saveCache := saveCache w |}.

(** A job started without the required input. *)
Definition no_version_file : World := set_input Demo.miss "go-version-file" "".


(** A job whose [go.mod] is not there. *)
Definition no_go_mod : World :=
  with_existsSync Demo.miss (fun p => negb (String.eqb p "/work/go.mod")).

(** A job whose [go.mod] has no go directive. *)
Definition bare_files (p : string) : string + list byte :=
  if String.eqb p "/work/go.mod" then inr (list_byte_of_string "module example.com/app")
  else Demo.files p.

Definition bare_go_mod : World :=
  Demo.world Demo.inputs "/home/runner" Demo.master bare_files (inr None) None.


(** The first job of a runner whose download fails. *)
Definition offline : World :=
  with_exec Demo.fresh
            (fun cmd _ => if String.eqb cmd "curl"
                          then Some "The process 'curl' failed with exit code 6"
                          else None).

(** A save phase started on the primary branch with a given session state. *)
Definition on_master : World := Demo.miss.

End Jobs.


(** The archive the platform downloads. *)
Definition archive_suffix (w : World) : string :=
  if String.eqb (platform w) "win32" then ".zip" else ".tar.gz".

(** A call of the set-up that the world answered without an error. *)
Definition answered (w : World) (e : Event) : Prop :=
  match e with
  | Exec cmd args =>
      if String.eqb cmd "go" then exists stdout, getExecOutput w cmd args = inr stdout
      else exec w cmd args = None
  | Mkdir p => mkdirSync w p = None
  | Unlink p => unlinkSync w p = None
  | ReadFile p => exists raw, readFileSync w p = inr raw
  | _ => True
  end.

(** A property of every event of a computation that completes. *)
Definition emits_when_done {A} (P : Event -> Prop) (m : M A) : Prop :=
  forall a, outcome m = inr a -> Forall P (trace m).


(** * Bytes and UTF-8 *)

Ltac Zify.zify_post_hook ::= Z.div_mod_to_equations.

Lemma Z_of_byte_of_Z (z : Z) : (0 <= z < 256)%Z -> Z_of_byte (byte_of_Z z) = z.
Proof.
  intros Hz. unfold Z_of_byte, byte_of_Z.
  destruct (Byte.of_N (Z.to_N z)) as [b|] eqn:E.
  - apply Byte.to_of_N in E. lia.
  - apply Byte.of_N_None_iff in E. lia.
Qed.

Ltac decide_test :=
  match goal with
  | |- context [Z.leb ?a ?b] =>
      first [ rewrite (proj2 (Z.leb_le a b)) by lia
            | rewrite (proj2 (Z.leb_gt a b)) by lia
            | destruct (Z.leb_spec a b) ]
  | |- context [Z.ltb ?a ?b] =>
      first [ rewrite (proj2 (Z.ltb_lt a b)) by lia
            | rewrite (proj2 (Z.ltb_ge a b)) by lia
            | destruct (Z.ltb_spec a b) ]
  | |- context [Z.eqb ?a ?b] =>
      first [ rewrite (proj2 (Z.eqb_eq a b)) by lia
            | rewrite (proj2 (Z.eqb_neq a b)) by lia
            | destruct (Z.eqb_spec a b) ]
  end.

Ltac decode_next :=
  unfold decode_from; fold decode_from;
  repeat match goal with
  | |- context [Z_of_byte (byte_of_Z ?n)] => rewrite (Z_of_byte_of_Z n) by lia
  end;
  cbn [decode_step]; unfold first_byte;
  repeat (decide_test; cbn [andb]); cbn [app].

Lemma decode_encode_cp (cp : Z) (rest : list byte) :
  scalar cp ->
  decode_from Start (encode_cp cp ++ rest) = cp :: decode_from Start rest.
Proof.
  intros Hs. unfold scalar in Hs. unfold encode_cp.
  destruct (Z.ltb_spec cp 0x80);
    [|destruct (Z.ltb_spec cp 0x800); [|destruct (Z.ltb_spec cp 0x10000)]];
    cbn [app].
  - decode_next. done.
  - decode_next. decode_next. f_equal. lia.
  - decode_next; decode_next; decode_next; f_equal; lia.
  - decode_next; decode_next; decode_next; decode_next; f_equal; lia.
Qed.

Lemma utf8_decode_encode (cps : list Z) :
  Forall scalar cps -> utf8_decode (utf8_encode cps) = cps.
Proof.
  unfold utf8_decode. induction 1 as [|cp cps Hcp _ IH]; [done|].
  cbn [utf8_encode flat_map]. rewrite decode_encode_cp by done.
  f_equal. apply IH.
Qed.

(** * Strings *)

Lemma app_String (c : ascii) (a b : string) :
  String c a +:+ b = String c (a +:+ b).
Proof. reflexivity. Qed.

Lemma length_app (a b : string) :
  String.length (a +:+ b) = String.length a + String.length b.
Proof.
  induction a as [|c a IH]; [done|]. rewrite app_String. cbn. by rewrite IH.
Qed.

Lemma nl_free_app (a b : string) :
  JS.nl_free (a +:+ b) = JS.nl_free a && JS.nl_free b.
Proof.
  induction a as [|c a IH]; [done|]. rewrite app_String. cbn. rewrite IH.
  by rewrite andb_assoc.
Qed.

Lemma split_nl_not_nil (s : string) : JS.split_nl s <> [].
Proof.
  induction s as [|c s IH]; cbn; [done|].
  destruct (Ascii.eqb c JS.LF); [done|]. by destruct (JS.split_nl s).
Qed.

Lemma In_split_nl_free (s x : string) :
  In x (JS.split_nl s) -> JS.nl_free x = true.
Proof.
  revert x. induction s as [|c s IH]; cbn; intros x Hx.
  - destruct Hx as [<-|[]]. done.
  - destruct (Ascii.eqb c JS.LF) eqn:Ec.
    + destruct Hx as [<-|Hx]; [done | by apply IH].
    + destruct (JS.split_nl s) as [|h t] eqn:Es.
      * destruct Hx as [<-|[]]. cbn. by rewrite Ec.
      * destruct Hx as [<-|Hx].
        -- cbn. rewrite Ec. cbn. apply IH. by left.
        -- apply IH. by right.
Qed.

Lemma split_nl_free (s : string) : JS.nl_free s = true -> JS.split_nl s = [s].
Proof.
  induction s as [|c s IH]; cbn; [done|].
  intros [Hc Hs]%andb_prop. rewrite (negb_true_iff _) in Hc. rewrite Hc.
  by rewrite IH.
Qed.

Lemma split_nl_cons (a b : string) :
  JS.nl_free a = true ->
  JS.split_nl (a +:+ JS.nl +:+ b) = a :: JS.split_nl b.
Proof.
  induction a as [|c a IH].
  - done.
  - rewrite app_String. cbn.
    intros [Hc Ha]%andb_prop. rewrite (negb_true_iff _) in Hc. rewrite Hc.
    by rewrite IH.
Qed.

Lemma split_join_nl (l : list string) :
  l <> [] -> Forall (fun s => JS.nl_free s = true) l ->
  JS.split_nl (JS.join_nl l) = l.
Proof.
  intros Hne Hl. induction Hl as [|a l Ha Hl IH]; [done|].
  destruct l as [|b l].
  - cbn. by apply split_nl_free.
  - change (JS.join_nl (a :: b :: l)) with (a +:+ JS.nl +:+ JS.join_nl (b :: l)).
    rewrite split_nl_cons by done. f_equal. by apply IH.
Qed.

Lemma filter_Boolean_id (l : list string) :
  Forall (fun s => JS.truthy s = true) l -> JS.filter_Boolean l = l.
Proof.
  induction 1 as [|a l Ha _ IH]; [done|]. cbn. rewrite Ha. by f_equal.
Qed.

Lemma truthy_app_l (a b : string) : JS.truthy a = true -> JS.truthy (a +:+ b) = true.
Proof. destruct a; [done|]. by rewrite app_String. Qed.

Lemma truthy_ne (s : string) : JS.truthy s = true <-> s <> "".
Proof. destruct s; cbn; split; done. Qed.

(** * Effects *)

Section effects.
Context {A B : Type}.
Implicit Types (m : M A) (f : A -> M B).

Lemma outcome_bind_inv m f (b : B) :
  outcome (bind m f) = inr b ->
  exists a, outcome m = inr a /\ outcome (f a) = inr b.
Proof.
  destruct m as [t [e|a]]; cbn; [done|].
  destruct (f a) as [t' r] eqn:E. cbn. intros ->. exists a. by rewrite E.
Qed.

End effects.


Section emits.
Context (P : Event -> Prop).

Lemma emits_ret {A} (a : A) : emits P (ret a).
Proof. constructor. Qed.

Lemma emits_throw {A} (msg : string) : emits P (@throw A msg).
Proof. constructor. Qed.

Lemma emits_emit (e : Event) : P e -> emits P (emit e).
Proof. intros He. by repeat constructor. Qed.

Lemma emits_bind {A B} (m : M A) (f : A -> M B) :
  emits P m -> (forall a, emits P (f a)) -> emits P (bind m f).
Proof.
  unfold emits. destruct m as [t [e|a]]; cbn; [done|].
  intros Ht Hf. specialize (Hf a). destruct (f a) as [t' r]. cbn in *.
  apply Forall_app. done.
Qed.

Lemma emits_try_catch {A} (m : M A) (h : string -> M A) :
  emits P m -> (forall e, emits P (h e)) -> emits P (try_catch m h).
Proof.
  unfold emits. destruct m as [t [e|a]]; cbn; [|done].
  intros Ht Hh. specialize (Hh e). destruct (h e) as [t' r]. cbn in *.
  apply Forall_app. done.
Qed.

Lemma emits_attempt (e : Event) (failure : option string) :
  P e -> emits P (attempt e failure).
Proof.
  intros He. unfold attempt. apply emits_bind; [by apply emits_emit|].
  intros _. destruct failure; [apply emits_throw | apply emits_ret].
Qed.

End emits.


Lemma coi_throw {A} (Q : Prop) (msg : string) : completes_only_if Q (@throw A msg).
Proof. intros a. done. Qed.

Lemma coi_bind_l {A B} (Q : Prop) (m : M A) (f : A -> M B) :
  completes_only_if Q m -> completes_only_if Q (bind m f).
Proof. intros Hm b (a & Ha & _)%outcome_bind_inv. by apply (Hm a). Qed.

Lemma coi_bind_r {A B} (Q : Prop) (m : M A) (f : A -> M B) :
  (forall a, completes_only_if Q (f a)) -> completes_only_if Q (bind m f).
Proof. intros Hf b (a & _ & Hb)%outcome_bind_inv. by apply (Hf a b). Qed.

(** * The restore phase *)


Ltac walk_emits :=
  repeat first
    [ apply emits_ret
    | apply emits_throw
    | apply emits_emit; cbn; done
    | apply emits_attempt; cbn; done
    | apply emits_bind; [|intros ?]
    | match goal with
      | |- emits _ (if ?b then _ else _) => destruct b
      | |- emits _ (match ?x with _ => _ end) => destruct x
      end ].

Lemma install_emits (w : World) : emits setup_event (Main.install w).
Proof.
  unfold Main.install, getInput_required, path_join_from, readFile_utf8.
  cbv zeta. walk_emits.
Qed.

Lemma install_needs_home (w : World) :
  completes_only_if (is_Some (Main.home w)) (Main.install w).
Proof.
  unfold Main.install. cbv zeta.
  repeat first
    [ apply coi_throw
    | match goal with
      | |- completes_only_if _ (bind (path_join_from _ _ _) _) =>
          apply coi_bind_l; unfold path_join_from;
          destruct (Main.home w); [intros ? _; by eexists | apply coi_throw]
      end
    | apply coi_bind_r; intros ?
    | match goal with
      | |- completes_only_if _ (if ?b then _ else _) => destruct b
      | |- completes_only_if _ (match ?x with _ => _ end) => destruct x
      end ].
Qed.

Lemma cacheStep_shape (w : World) (wd job ver : string) :
  is_Some (Main.home w) ->
  exists pre : list Event,
    Forall log_event pre /\
    Main.cacheStep w wd job ver =
      (pre ++ RestoreCache (Main.cachePaths w) (Main.cacheKey w wd job ver)
                           (Main.restoreKeys w wd job ver)
           :: Main.restore_log w wd job ver
           ++ [ SaveState "cache-key" (Main.cacheKey w wd job ver);
                SaveState "cache-paths" (JS.join_nl (Main.cachePaths w));
                SaveState "cache-hit" (JS.bool_toString (Main.cacheHit w wd job ver));
                SetOutput "cache-hit" (JS.bool_toString (Main.cacheHit w wd job ver));
                Info ("Cache operation completed. Hit: "
                      +:+ JS.bool_toString (Main.cacheHit w wd job ver)) ],
       inr tt).
Proof.
  intros [h Hh].
  cbv [Main.cacheHit Main.restore_log Main.restored Main.cacheKey Main.restoreKeys
       Main.cachePaths Main.goSumHash Main.cacheStep Main.getFileHash readFile_utf8
       path_join_from bind try_catch emit ret throw outcome snd].
  rewrite Hh.
  destruct (readFileSync w (path_join w [wd; "go.sum"])) as [msg|raw];
    cbv beta iota zeta delta [app fst snd];
    match goal with
    | |- context [restoreCache w ?p ?k ?ks] =>
        destruct (restoreCache w p k ks) as [err|[k'|]]
    end;
    cbv beta iota zeta delta [app fst snd Main.truthy_key];
    try match goal with
    | |- context [JS.truthy ?k] => destruct (JS.truthy k)
    end;
    cbv beta iota zeta delta [app fst snd].
  all: first
    [ by eexists [_; _; _; _]; repeat split; repeat constructor
    | by eexists [_; _; _; _; _]; repeat split; repeat constructor ].
Qed.

Lemma lift_setup (e : Event) : setup_event e -> setup_event e \/ log_event e.
Proof. by left. Qed.

Lemma lift_log (e : Event) : log_event e -> setup_event e \/ log_event e.
Proof. by right. Qed.

(** The whole restore phase, once the toolchain is set up. *)
Lemma run_shape (w : World) (wd job ver : string) :
  outcome (Main.install w) = inr (wd, job, ver) ->
  exists pre : list Event,
    Forall (fun e => setup_event e \/ log_event e) pre /\
    Main.run w =
      (pre ++ RestoreCache (Main.cachePaths w) (Main.cacheKey w wd job ver)
                           (Main.restoreKeys w wd job ver)
           :: Main.restore_log w wd job ver
           ++ [ SaveState "cache-key" (Main.cacheKey w wd job ver);
                SaveState "cache-paths" (JS.join_nl (Main.cachePaths w));
                SaveState "cache-hit" (JS.bool_toString (Main.cacheHit w wd job ver));
                SetOutput "cache-hit" (JS.bool_toString (Main.cacheHit w wd job ver));
                Info ("Cache operation completed. Hit: "
                      +:+ JS.bool_toString (Main.cacheHit w wd job ver)) ],
       inr tt).
Proof.
  intros Hok.
  destruct (cacheStep_shape w wd job ver) as (pre & Hpre & Hstep).
  { by apply (install_needs_home w (wd, job, ver)). }
  pose proof (install_emits w) as Hsetup. unfold emits in Hsetup.
  unfold Main.run. destruct (Main.install w) as [t r]. cbn in Hok, Hsetup. subst r.
  cbv [bind try_catch]. rewrite Hstep.
  exists (t ++ pre). split.
  - apply Forall_app. split.
    + eapply Forall_impl; [done | apply lift_setup].
    + eapply Forall_impl; [done | apply lift_log].
  - by rewrite <- app_assoc.
Qed.

Lemma filter_none (f : Event -> bool) (P : Event -> Prop) (l : list Event) :
  Forall P l -> (forall e, P e -> f e = false) -> List.filter f l = [].
Proof.
  intros Hl Hf. induction Hl as [|e l He _ IH]; [done|].
  cbn. by rewrite (Hf e He).
Qed.

Lemma existsb_none (f : Event -> bool) (P : Event -> Prop) (l : list Event) :
  Forall P l -> (forall e, P e -> f e = false) -> existsb f l = false.
Proof.
  intros Hl Hf. induction Hl as [|e l He _ IH]; [done|].
  cbn. by rewrite (Hf e He).
Qed.

Lemma restore_log_events (w : World) (wd job ver : string) :
  Forall log_event (Main.restore_log w wd job ver).
Proof.
  unfold Main.restore_log. destruct (Main.restored w wd job ver) as [msg|r].
  - by repeat constructor.
  - destruct (Main.truthy_key r); by repeat constructor.
Qed.

Lemma shape_assoc {A} (pre : list A) (x : A) (mid last : list A) :
  pre ++ x :: mid ++ last = (pre ++ x :: mid) ++ last.
Proof. by rewrite <- app_assoc. Qed.

Lemma state_of_app (t1 t2 : list Event) :
  state_of (t1 ++ t2) = fold_left record_state t2 (state_of t1).
Proof. apply fold_left_app. Qed.

Lemma outputs_of_app (t1 t2 : list Event) :
  outputs_of (t1 ++ t2) = fold_left record_output t2 (outputs_of t1).
Proof. apply fold_left_app. Qed.

Section restore_phase.
Context (w : World) (wd job ver : string).
Hypothesis Hsetup : outcome (Main.install w) = inr (wd, job, ver).

Let key := Main.cacheKey w wd job ver.
Let hit := JS.bool_toString (Main.cacheHit w wd job ver).

Lemma run_state :
  state_of (trace (Main.run w)) !! "cache-key" = Some key /\
  state_of (trace (Main.run w)) !! "cache-paths" = Some (JS.join_nl (Main.cachePaths w)) /\
  state_of (trace (Main.run w)) !! "cache-hit" = Some hit.
Proof.
  destruct (run_shape w wd job ver Hsetup) as (pre & _ & ->). cbn [trace fst].
  rewrite shape_assoc, state_of_app.
  cbn [fold_left record_state].
  repeat split; by simplify_map_eq.
Qed.

Lemma run_output :
  outputs_of (trace (Main.run w)) !! "cache-hit" = Some hit.
Proof.
  destruct (run_shape w wd job ver Hsetup) as (pre & _ & ->). cbn [trace fst].
  rewrite shape_assoc, outputs_of_app.
  cbn [fold_left record_output]. by simplify_map_eq.
Qed.

Lemma run_restore_calls :
  restore_calls (trace (Main.run w))
  = [RestoreCache (Main.cachePaths w) key (Main.restoreKeys w wd job ver)].
Proof.
  destruct (run_shape w wd job ver Hsetup) as (pre & Hpre & ->). cbn [trace fst].
  unfold restore_calls. rewrite List.filter_app. cbn [List.filter is_RestoreCache].
  rewrite List.filter_app.
  rewrite (filter_none _ _ pre Hpre), (filter_none _ _ _ (restore_log_events w wd job ver)).
  - done.
  - by intros [].
  - intros [] [H|H]; done.
Qed.

Lemma run_not_failed :
  job_failed (trace (Main.run w)) = false /\ outcome (Main.run w) = inr tt.
Proof.
  destruct (run_shape w wd job ver Hsetup) as (pre & Hpre & ->). cbn [trace outcome fst snd].
  split; [|done]. unfold job_failed.
  rewrite List.existsb_app. cbn [existsb is_SetFailed]. rewrite List.existsb_app.
  rewrite (existsb_none _ _ pre Hpre), (existsb_none _ _ _ (restore_log_events w wd job ver)).
  - done.
  - by intros [].
  - intros [] [H|H]; done.
Qed.

End restore_phase.

(** * The key list *)

Section keys.
Context (r v j h : string).

Lemma keys_split_when_nl_free :
  JS.nl_free (Main.primaryKey r v j h) = true ->
  Main.restoreKeysArray r v j h =
    [ Main.primaryKey r v j h;
      "golang-" +:+ r +:+ "-" +:+ v +:+ "-" +:+ j;
      "golang-" +:+ r +:+ "-" +:+ v;
      "golang-" +:+ r ].
Proof.
  unfold Main.primaryKey. rewrite !nl_free_app.
  intros Hfree. repeat (apply andb_prop in Hfree as [? Hfree]).
  unfold Main.restoreKeysArray, Main.buildRestoreKeys.
  rewrite split_join_nl.
  - apply filter_Boolean_id. repeat constructor; by apply truthy_app_l.
  - done.
  - repeat constructor; rewrite !nl_free_app; repeat (apply andb_true_intro; split); done.
Qed.

(** No key after the first of the restore key list is the primary key. *)
Lemma fallback_is_not_primary (i : nat) (k : string) :
  Main.restoreKeysArray r v j h !! S i = Some k -> k <> Main.primaryKey r v j h.
Proof.
  intros Hk ->.
  assert (JS.nl_free (Main.primaryKey r v j h) = true) as Hfree.
  { apply (In_split_nl_free (Main.buildRestoreKeys r v j h)).
    apply list_elem_of_lookup_2, list_elem_of_In in Hk.
    unfold Main.restoreKeysArray, JS.filter_Boolean in Hk.
    by apply List.filter_In in Hk as [? _]. }
  rewrite (keys_split_when_nl_free Hfree) in Hk.
  assert (forall a b : string, a = b -> String.length a = String.length b) as Hlen
    by (by intros ? ? ->).
  destruct i as [|[|[|i]]]; cbn in Hk; [| | |done];
    injection Hk as Hk; apply Hlen in Hk;
    unfold Main.primaryKey in Hk; rewrite !length_app in Hk; cbn in Hk; lia.
Qed.

End keys.

(** * Properties of the restore phase *)

(** C2: for os Linux, toolchain version 1.22.0, job name build and content
    hash a1b2c3d4 the primary key is golang-Linux-1.22.0-build-a1b2c3d4 and
    the restore key list is that key followed by golang-Linux-1.22.0-build,
    golang-Linux-1.22.0 and golang-Linux, with the primary key as element 0. *)
Theorem key_derivation_example :
  Main.primaryKey "Linux" "1.22.0" "build" "a1b2c3d4"
    = "golang-Linux-1.22.0-build-a1b2c3d4" /\
  Main.restoreKeysArray "Linux" "1.22.0" "build" "a1b2c3d4"
    = [ "golang-Linux-1.22.0-build-a1b2c3d4"; "golang-Linux-1.22.0-build";
        "golang-Linux-1.22.0"; "golang-Linux" ] /\
  Main.restoreKeysArray "Linux" "1.22.0" "build" "a1b2c3d4" !! 0
    = Some (Main.primaryKey "Linux" "1.22.0" "build" "a1b2c3d4").
Proof. repeat split; reflexivity. Qed.

(** C1: once the restore phase reaches its cache step, the persisted
    cache-hit is true exactly when the store's restore call returned the
    primary key; a restore that returns a later element of the restore key
    list, or nothing, leaves it false. *)
Theorem cacheHit_iff_primary_key (w : World) (wd job ver : string) :
  outcome (Main.install w) = inr (wd, job, ver) ->
  let st := state_of (trace (Main.run w)) in
  let key := Main.cacheKey w wd job ver in
  let keys := Main.restoreKeys w wd job ver in
  restore_calls (trace (Main.run w)) = [RestoreCache (Main.cachePaths w) key keys] /\
  st !! "cache-key" = Some key /\
  (st !! "cache-hit" = Some "true" <-> Main.restored w wd job ver = inr (Some key)) /\
  (st !! "cache-hit" = Some "false" <-> Main.restored w wd job ver <> inr (Some key)) /\
  (forall i k, keys !! S i = Some k ->
     Main.restored w wd job ver = inr (Some k) -> st !! "cache-hit" = Some "false") /\
  (Main.restored w wd job ver = inr None -> st !! "cache-hit" = Some "false").
Proof.
  intros Hsetup st key keys.
  destruct (run_state w wd job ver Hsetup) as (Hkey & _ & Hhit).
  assert (Main.cacheHit w wd job ver = true
          <-> Main.restored w wd job ver = inr (Some key)) as Hiff.
  { unfold Main.cacheHit. destruct (Main.restored w wd job ver) as [msg|[k|]]; cbn.
    - split; done.
    - rewrite String.eqb_eq. split; [by intros -> | by intros [= ->]].
    - split; done. }
  assert (st !! "cache-hit" = Some "true"
          <-> Main.restored w wd job ver = inr (Some key)) as Htrue.
  { subst st. rewrite Hhit, <- Hiff. destruct (Main.cacheHit w wd job ver); cbn; split; done. }
  assert (st !! "cache-hit" = Some "false"
          <-> Main.restored w wd job ver <> inr (Some key)) as Hfalse.
  { subst st. rewrite Hhit, <- Hiff. destruct (Main.cacheHit w wd job ver); cbn; split; done. }
  split; [by apply run_restore_calls|]. split; [done|]. split; [done|]. split; [done|].
  split.
  - intros i k Hk Hr. apply Hfalse. rewrite Hr. intros [= ->].
    by apply fallback_is_not_primary in Hk.
  - intros Hr. apply Hfalse. by rewrite Hr.
Qed.

Lemma cacheHit_iff_primary_key_witness :
  outcome (Main.install Demo.exact) = inr (".", "build", "1.22.0") /\
  state_of (trace (Main.run Demo.exact)) !! "cache-hit" = Some "true" /\
  state_of (trace (Main.run Demo.fallback)) !! "cache-hit" = Some "false".
Proof.
  assert (outcome (Main.install Demo.exact) = inr (".", "build", "1.22.0")) as Hsetup
    by (vm_compute; reflexivity).
  assert (outcome (Main.install Demo.fallback) = inr (".", "build", "1.22.0")) as Hsetup'
    by (vm_compute; reflexivity).
  split; [exact Hsetup|]. split.
  - destruct (cacheHit_iff_primary_key Demo.exact "." "build" "1.22.0" Hsetup)
      as (_ & _ & Htrue & _).
    apply Htrue. vm_compute. reflexivity.
  - destruct (cacheHit_iff_primary_key Demo.fallback "." "build" "1.22.0" Hsetup')
      as (_ & _ & _ & _ & Hfallback & _).
    apply (Hfallback 0%nat "golang-Linux-1.22.0-build"); vm_compute; reflexivity.
Defined.

(** C10: once the restore phase reaches its cache step, cache-key,
    cache-paths and cache-hit are written to the session state, also when
    the store's restore call throws, and then cache-hit is false; the
    cache-hit output is the persisted cache-hit. *)
Theorem session_state_always_written (w : World) (wd job ver : string) :
  outcome (Main.install w) = inr (wd, job, ver) ->
  let st := state_of (trace (Main.run w)) in
  st !! "cache-key" = Some (Main.cacheKey w wd job ver) /\
  st !! "cache-paths" = Some (JS.join_nl (Main.cachePaths w)) /\
  is_Some (st !! "cache-hit") /\
  outputs_of (trace (Main.run w)) !! "cache-hit" = st !! "cache-hit" /\
  (forall message, Main.restored w wd job ver = inl message ->
     st !! "cache-key" = Some (Main.cacheKey w wd job ver) /\
     st !! "cache-paths" = Some (JS.join_nl (Main.cachePaths w)) /\
     st !! "cache-hit" = Some "false" /\
     outputs_of (trace (Main.run w)) !! "cache-hit" = Some "false").
Proof.
  intros Hsetup st.
  destruct (run_state w wd job ver Hsetup) as (Hkey & Hpaths & Hhit).
  pose proof (run_output w wd job ver Hsetup) as Hout.
  subst st. rewrite Hkey, Hpaths, Hhit, Hout.
  repeat split; try done.
  all: unfold Main.cacheHit; by rewrite H.
Qed.

Lemma session_state_always_written_witness :
  outcome (Main.install Demo.outage) = inr (".", "build", "1.22.0") /\
  Main.restored Demo.outage "." "build" "1.22.0" = inl "Cache service responded with 503" /\
  state_of (trace (Main.run Demo.outage)) !! "cache-hit" = Some "false" /\
  outputs_of (trace (Main.run Demo.outage)) !! "cache-hit" = Some "false".
Proof.
  assert (outcome (Main.install Demo.outage) = inr (".", "build", "1.22.0")) as Hsetup
    by (vm_compute; reflexivity).
  assert (Main.restored Demo.outage "." "build" "1.22.0"
          = inl "Cache service responded with 503") as Hdown
    by (vm_compute; reflexivity).
  split; [exact Hsetup|]. split; [exact Hdown|].
  destruct (session_state_always_written Demo.outage "." "build" "1.22.0" Hsetup)
    as (_ & _ & _ & _ & Hthrown).
  destruct (Hthrown "Cache service responded with 503" Hdown) as (_ & _ & Hst & Hout).
  split; [exact Hst | exact Hout].
Defined.

(** * Properties of the content fingerprint *)

Lemma getFileHash_readable (w : World) (p : string) (raw : list byte) :
  readFileSync w p = inr raw ->
  Main.getFileHash w p
  = ([ReadFile p],
     inr (JS.substring0 8 (sha256_hex (utf8_encode (utf8_decode raw))))).
Proof.
  intros Hraw. unfold Main.getFileHash, readFile_utf8. rewrite Hraw.
  cbv [bind try_catch emit ret app]. unfold JS.sha256_hex_of_string, JS.toString_utf8.
  by rewrite list_byte_of_string_of_list_byte.
Qed.

(** C6, as amended: the content hash of a readable file is the first 8
    hexadecimal characters of the SHA-256 digest of the file's text,
    decoded from UTF-8 and encoded again; for a file that is well-formed
    UTF-8 that is the digest of its raw bytes. *)
Theorem contentHash_of_readable_file (w : World) (p : string) (raw : list byte) :
  readFileSync w p = inr raw ->
  outcome (Main.getFileHash w p)
    = inr (JS.substring0 8 (sha256_hex (utf8_encode (utf8_decode raw)))) /\
  (valid_utf8 raw ->
   outcome (Main.getFileHash w p) = inr (JS.substring0 8 (sha256_hex raw))).
Proof.
  intros Hraw. rewrite (getFileHash_readable w p raw Hraw). split; [done|].
  intros (cps & Hcps & ->). cbn [outcome snd]. by rewrite utf8_decode_encode.
Qed.

Lemma go_sum_is_utf8 : valid_utf8 Demo.go_sum.
Proof.
  exists (map Z_of_byte Demo.go_sum). split; [|vm_compute; reflexivity].
  let l := eval vm_compute in (map Z_of_byte Demo.go_sum) in
  change (Forall scalar l).
  repeat (constructor; [left; lia|]). constructor.
Defined.

Lemma contentHash_of_readable_file_witness :
  readFileSync Demo.miss "go.sum" = inr Demo.go_sum /\
  valid_utf8 Demo.go_sum /\
  outcome (Main.getFileHash Demo.miss "go.sum")
    = inr (JS.substring0 8 (sha256_hex Demo.go_sum)).
Proof.
  assert (readFileSync Demo.miss "go.sum" = inr Demo.go_sum) as Hread
    by (vm_compute; reflexivity).
  split; [exact Hread|]. split; [exact go_sum_is_utf8|].
  exact (proj2 (contentHash_of_readable_file Demo.miss "go.sum" Demo.go_sum Hread)
               go_sum_is_utf8).
Defined.

(** C6, as stated, fails: a file holding the single byte FF is read as
    U+FFFD, whose UTF-8 encoding EF BF BD is what gets hashed. *)
Lemma contentHash_not_of_raw_bytes :
  readFileSync Demo.latin1 "go.sum" = inr [xff] /\
  outcome (Main.getFileHash Demo.latin1 "go.sum") = inr "83d544cc" /\
  JS.substring0 8 (sha256_hex [xff]) = "a8100ae6" /\
  outcome (Main.getFileHash Demo.latin1 "go.sum")
    <> inr (JS.substring0 8 (sha256_hex [xff])).
Proof.
  split; [vm_compute; reflexivity|]. split; [vm_compute; reflexivity|].
  split; [vm_compute; reflexivity|]. vm_compute. discriminate.
Qed.

(** C8: a content file that cannot be read yields the sentinel missing,
    with a warning, and nothing is thrown to the caller. *)
Theorem unreadable_file_yields_missing (w : World) (p message : string) :
  readFileSync w p = inl message ->
  outcome (Main.getFileHash w p) = inr "missing" /\
  trace (Main.getFileHash w p)
    = [ReadFile p; Warning ("Could not read " +:+ p +:+ ": " +:+ message)].
Proof.
  intros Herr. unfold Main.getFileHash, readFile_utf8. rewrite Herr. by split.
Qed.

Lemma unreadable_file_yields_missing_witness :
  readFileSync Demo.no_sum "go.sum"
    = inl "ENOENT: no such file or directory, open 'go.sum'" /\
  outcome (Main.getFileHash Demo.no_sum "go.sum") = inr "missing".
Proof.
  assert (readFileSync Demo.no_sum "go.sum"
          = inl "ENOENT: no such file or directory, open 'go.sum'") as Hread
    by (vm_compute; reflexivity).
  split; [exact Hread|].
  exact (proj1 (unreadable_file_yields_missing Demo.no_sum "go.sum" _ Hread)).
Defined.

(** C7: the restore phase never reads the cache-dependency-path option
    that action.yml declares: a run is the same whatever its value, and in
    the job that sets it to deps/go.sum the file fingerprinted is go.sum of
    the working directory. *)
Theorem cache_dependency_path_is_ignored :
  (forall (w : World) (value : string),
     Main.run (set_input w "cache-dependency-path" value) = Main.run w) /\
  input Demo.miss "cache-dependency-path" = "deps/go.sum" /\
  files_read (trace (Main.run Demo.miss)) = [ReadFile "/work/go.mod"; ReadFile "go.sum"].
Proof.
  split; [|split; vm_compute; reflexivity].
  intros w value. reflexivity.
Qed.

(** * Properties of the save phase *)

(** C4: off the primary branch the save phase never calls the store's
    save primitive, whatever the session state holds. *)
Theorem no_save_off_primary_branch (w : World) (st : gmap string string) :
  context_ref w <> "refs/heads/master" ->
  save_calls (trace (Post.run w st)) = [] /\
  trace (Post.run w st)
    = [ Info ("Current ref: " +:+ context_ref w);
        Info "Not on master branch, skipping cache save" ].
Proof.
  intros Href. unfold Post.run.
  destruct (String.eqb_spec (context_ref w) "refs/heads/master"); done.
Qed.

Lemma no_save_off_primary_branch_witness :
  context_ref Demo.feature <> "refs/heads/master" /\
  save_calls (trace (Post.run Demo.feature (Demo.handoff Demo.feature))) = [].
Proof.
  assert (context_ref Demo.feature <> "refs/heads/master") as Href by discriminate.
  split; [exact Href|].
  exact (proj1 (no_save_off_primary_branch Demo.feature (Demo.handoff Demo.feature) Href)).
Defined.

(** C5: on the primary branch with persisted cache-hit true, the save
    phase stops at the hit guard: nothing is saved and, whether or not
    cache-key and cache-paths were persisted, no warning is logged. *)
Theorem no_save_on_exact_hit (w : World) (st : gmap string string) :
  context_ref w = "refs/heads/master" ->
  Post.getState st "cache-hit" = "true" ->
  trace (Post.run w st)
    = [ Info "Current ref: refs/heads/master"; Info "Cache hit: true";
        Info "Cache was hit, skipping cache save" ] /\
  save_calls (trace (Post.run w st)) = [] /\
  warnings (trace (Post.run w st)) = [].
Proof.
  intros Href Hhit. unfold Post.run. rewrite Href, Hhit. done.
Qed.

Lemma no_save_on_exact_hit_witness :
  context_ref Demo.exact = "refs/heads/master" /\
  Post.getState {["cache-hit" := "true"]} "cache-hit" = "true" /\
  Post.getState {["cache-hit" := "true"]} "cache-key" = "" /\
  warnings (trace (Post.run Demo.exact {["cache-hit" := "true"]})) = [].
Proof.
  assert (context_ref Demo.exact = "refs/heads/master") as Href by reflexivity.
  assert (Post.getState {["cache-hit" := "true"]} "cache-hit" = "true") as Hhit
    by (vm_compute; reflexivity).
  split; [exact Href|]. split; [exact Hhit|]. split; [vm_compute; reflexivity|].
  exact (proj2 (proj2 (no_save_on_exact_hit Demo.exact {["cache-hit" := "true"]} Href Hhit))).
Defined.

(** The save phase past its three guards. *)
Lemma save_path (w : World) (st : gmap string string) (key paths : string) :
  context_ref w = "refs/heads/master" ->
  Post.getState st "cache-hit" = "false" ->
  Post.getState st "cache-key" = key -> key <> "" ->
  Post.getState st "cache-paths" = paths -> paths <> "" ->
  save_calls (trace (Post.run w st))
    = [SaveCache (JS.filter_Boolean (JS.split_nl paths)) key].
Proof.
  intros Href Hhit Hkey Hk Hpaths Hp. unfold Post.run.
  rewrite Href, Hhit, Hkey, Hpaths.
  apply truthy_ne in Hk, Hp.
  cbv [String.eqb Ascii.eqb Bool.eqb negb]. rewrite Hk, Hp.
  cbv [negb orb attempt bind try_catch emit ret throw].
  by destruct (saveCache w (JS.filter_Boolean (JS.split_nl paths)) key).
Qed.

(** C3, as amended: on the primary branch, with persisted cache-hit false
    and cache-key and cache-paths present, the save phase calls the save
    primitive exactly once, with the persisted key and with the list of
    directories that was joined into cache-paths, provided no directory of
    that list is empty or contains a line feed. *)
Theorem save_once_with_persisted_state
    (w : World) (st : gmap string string) (key : string) (dirs : list string) :
  context_ref w = "refs/heads/master" ->
  Post.getState st "cache-hit" = "false" ->
  Post.getState st "cache-key" = key -> key <> "" ->
  Post.getState st "cache-paths" = JS.join_nl dirs -> JS.join_nl dirs <> "" ->
  Forall (fun d => d <> "" /\ JS.nl_free d = true) dirs ->
  save_calls (trace (Post.run w st)) = [SaveCache dirs key].
Proof.
  intros Href Hhit Hkey Hk Hpaths Hp Hdirs.
  rewrite (save_path w st key (JS.join_nl dirs)) by done.
  assert (dirs <> []) as Hne by (by intros ->).
  rewrite split_join_nl; [|done|].
  - rewrite filter_Boolean_id; [done|].
    eapply Forall_impl; [done|]. intros d [Hd _]. by apply truthy_ne.
  - eapply Forall_impl; [done|]. by intros d [_ Hd].
Qed.

Lemma save_once_with_persisted_state_witness :
  Post.getState (Demo.handoff Demo.miss) "cache-paths"
    = JS.join_nl ["/home/runner/.cache/go-build"; "/home/runner/go/pkg/mod"] /\
  save_calls (trace (Post.run Demo.miss (Demo.handoff Demo.miss)))
    = [ SaveCache ["/home/runner/.cache/go-build"; "/home/runner/go/pkg/mod"]
                  "golang-Linux-1.22.0-build-7b1d1d3b" ].
Proof.
  assert (Post.getState (Demo.handoff Demo.miss) "cache-paths"
          = JS.join_nl ["/home/runner/.cache/go-build"; "/home/runner/go/pkg/mod"])
    as Hpaths by (vm_compute; reflexivity).
  split; [exact Hpaths|].
  apply (save_once_with_persisted_state Demo.miss (Demo.handoff Demo.miss)).
  - reflexivity.
  - vm_compute; reflexivity.
  - vm_compute; reflexivity.
  - discriminate.
  - exact Hpaths.
  - vm_compute; discriminate.
  - repeat constructor; try discriminate.
Defined.

(** C3, as stated, fails: when the home directory has a line feed in its
    name, the directories the restore phase persisted are not the ones the
    save phase saves. *)
Lemma save_paths_not_split_back :
  context_ref Demo.odd = "refs/heads/master" /\
  Post.getState (Demo.handoff Demo.odd) "cache-hit" = "false" /\
  Post.getState (Demo.handoff Demo.odd) "cache-key" = "golang-Linux-1.22.0-build-7b1d1d3b" /\
  Post.getState (Demo.handoff Demo.odd) "cache-paths" = JS.join_nl (Main.cachePaths Demo.odd) /\
  JS.join_nl (Main.cachePaths Demo.odd) <> "" /\
  save_calls (trace (Post.run Demo.odd (Demo.handoff Demo.odd)))
    = [ SaveCache ["/home/ci"; "runner/.cache/go-build"; "/home/ci"; "runner/go/pkg/mod"]
                  "golang-Linux-1.22.0-build-7b1d1d3b" ] /\
  save_calls (trace (Post.run Demo.odd (Demo.handoff Demo.odd)))
    <> [ SaveCache (Main.cachePaths Demo.odd) "golang-Linux-1.22.0-build-7b1d1d3b" ].
Proof.
  repeat split; try (vm_compute; reflexivity); vm_compute; discriminate.
Qed.

(** * Store failures *)

Lemma run_total (w : World) : outcome (Main.run w) = inr tt.
Proof.
  unfold Main.run.
  destruct (bind (Main.install w) _) as [t [e|[]]]; reflexivity.
Qed.

Lemma post_run_total (w : World) (st : gmap string string) :
  outcome (Post.run w st) = inr tt.
Proof.
  unfold Post.run. cbv zeta.
  match goal with |- outcome (try_catch ?m _) = _ => destruct m as [t [e|[]]] end;
    reflexivity.
Qed.

Lemma post_run_never_fails (w : World) (st : gmap string string) :
  emits (fun e => is_SetFailed e = false) (Post.run w st).
Proof.
  unfold Post.run. cbv zeta.
  repeat first
    [ apply emits_ret
    | apply emits_throw
    | apply emits_emit; reflexivity
    | apply emits_attempt; reflexivity
    | apply emits_bind; [|intros ?]
    | apply emits_try_catch; [|intros ?]
    | match goal with
      | |- emits _ (if ?b then _ else _) => destruct b
      end ].
Qed.

(** C9: an error thrown by the store's restore primitive is caught in the
    restore phase, which records a full miss and does not fail the job; an
    error thrown by its save primitive is caught in the save phase, which
    never fails the job. *)
Theorem store_failures_are_contained :
  (forall (w : World) (wd job ver message : string),
     outcome (Main.install w) = inr (wd, job, ver) ->
     Main.restored w wd job ver = inl message ->
     outcome (Main.run w) = inr tt /\
     job_failed (trace (Main.run w)) = false /\
     Main.restore_log w wd job ver = [Warning ("Cache restore failed: " +:+ message)] /\
     state_of (trace (Main.run w)) !! "cache-hit" = Some "false") /\
  (forall (w : World) (st : gmap string string),
     outcome (Post.run w st) = inr tt /\
     job_failed (trace (Post.run w st)) = false) /\
  (forall (w : World) (st : gmap string string) (key paths message : string),
     context_ref w = "refs/heads/master" ->
     Post.getState st "cache-hit" = "false" ->
     Post.getState st "cache-key" = key -> key <> "" ->
     Post.getState st "cache-paths" = paths -> paths <> "" ->
     saveCache w (JS.filter_Boolean (JS.split_nl paths)) key = Some message ->
     In (Warning ("Cache save failed: " +:+ message)) (trace (Post.run w st))).
Proof.
  split; [|split].
  - intros w wd job ver message Hsetup Hthrown.
    destruct (run_not_failed w wd job ver Hsetup) as [Hok Hout].
    destruct (run_state w wd job ver Hsetup) as (_ & _ & Hhit).
    repeat split; try done.
    + unfold Main.restore_log. by rewrite Hthrown.
    + rewrite Hhit. unfold Main.cacheHit. by rewrite Hthrown.
  - intros w st. split; [apply post_run_total|].
    unfold job_failed. eapply existsb_none; [apply post_run_never_fails|]. done.
  - intros w st key paths message Href Hhit Hkey Hk Hpaths Hp Hsave.
    unfold Post.run. rewrite Href, Hhit, Hkey, Hpaths.
    apply truthy_ne in Hk, Hp.
    cbv [String.eqb Ascii.eqb Bool.eqb negb]. rewrite Hk, Hp.
    cbv [negb orb attempt bind try_catch emit ret throw]. rewrite Hsave.
    cbn. tauto.
Qed.

Lemma store_failures_are_contained_witness :
  Main.restored Demo.outage "." "build" "1.22.0" = inl "Cache service responded with 503" /\
  job_failed (trace (Main.run Demo.outage)) = false /\
  In (Warning "Cache save failed: Cache service responded with 503")
     (trace (Post.run Demo.outage (Demo.handoff Demo.outage))).
Proof.
  assert (outcome (Main.install Demo.outage) = inr (".", "build", "1.22.0")) as Hsetup
    by (vm_compute; reflexivity).
  assert (Main.restored Demo.outage "." "build" "1.22.0"
          = inl "Cache service responded with 503") as Hdown
    by (vm_compute; reflexivity).
  destruct store_failures_are_contained as (Hrestore & _ & Hsave).
  split; [exact Hdown|]. split.
  - exact (proj1 (proj2 (Hrestore Demo.outage "." "build" "1.22.0" _ Hsetup Hdown))).
  - apply (Hsave Demo.outage (Demo.handoff Demo.outage)
                 "golang-Linux-1.22.0-build-7b1d1d3b"
                 (JS.join_nl ["/home/runner/.cache/go-build"; "/home/runner/go/pkg/mod"]));
      try (vm_compute; reflexivity); discriminate.
Defined.

(** * The model at work *)

Example sha256_empty :
  sha256_hex [] = "e3b0c44298fc1c149afbf4c8996fb92427ae41e4649b934ca495991b7852b855".
Proof. vm_compute. reflexivity. Qed.

Example sha256_abc :
  sha256_hex (list_byte_of_string "abc")
  = "ba7816bf8f01cfea414140de5dae2223b00361a396177a9cb410ff61f20015ad".
Proof. vm_compute. reflexivity. Qed.

Example sha256_one_block_full :
  sha256_hex (repeat "a"%byte 56)
  = "b35439a4ac6f0948b6d6f9e3c6af0f5f590ce20f1bde7090ef7970686ec6738a".
Proof. vm_compute. reflexivity. Qed.

Example sha256_two_blocks :
  sha256_hex (repeat "a"%byte 119)
  = "31eba51c313a5c08226adf18d4a359cfdfd8d2e816b13f4af952f7ea6584dcfb".
Proof. vm_compute. reflexivity. Qed.

Example decode_ill_formed :
  utf8_decode [xff; x41; xc3; xa9; xe2; x82] = [0xFFFD; 0x41; 0xE9; 0xFFFD]%Z.
Proof. vm_compute. reflexivity. Qed.

Example decode_surrogate_and_overlong :
  utf8_decode [xed; xa0; x80; xc0; xaf]
  = [0xFFFD; 0xFFFD; 0xFFFD; 0xFFFD; 0xFFFD]%Z.
Proof. vm_compute. reflexivity. Qed.

Example go_directive_found :
  JS.match_go_directive ("module example.com/app" +:+ JS.nl +:+ "go   1.21.3 // toolchain")
  = Some "1.21.3".
Proof. vm_compute. reflexivity. Qed.

Example go_directive_needs_line_start :
  JS.match_go_directive ("module example.com/app" +:+ JS.nl +:+ "  go 1.21") = None.
Proof. vm_compute. reflexivity. Qed.

Example go_version_found :
  JS.match_go_version "go version go1.22.0 linux/amd64" = Some "1.22.0".
Proof. vm_compute. reflexivity. Qed.

Example split_keeps_empty_tail :
  JS.split_nl ("a" +:+ JS.nl +:+ "b" +:+ JS.nl) = ["a"; "b"; ""].
Proof. vm_compute. reflexivity. Qed.

Example fresh_runner_installs_go :
  List.filter (fun e => match e with Exec _ _ | Mkdir _ | Unlink _ => true | _ => false end)
              (trace (Main.run Demo.fresh))
  = [ Mkdir "/home/runner/go-install";
      Exec "curl" ["-L"; "-o"; "/tmp/go1.22.tar.gz";
                   "https://dl.google.com/go/go1.22.linux-amd64.tar.gz"];
      Exec "tar" ["-xzf"; "/tmp/go1.22.tar.gz"; "-C"; "/home/runner/go-install"];
      Exec "mv" ["/home/runner/go-install/go"; "/home/runner/go-install/1.22"];
      Unlink "/tmp/go1.22.tar.gz";
      Exec "go" ["version"] ].
Proof. vm_compute. reflexivity. Qed.

Example missing_input_fails_the_job :
  Main.run (set_input Demo.miss "go-version-file" "")
  = ([SetFailed "Action failed: Input required and not supplied: go-version-file"], inr tt).
Proof. vm_compute. reflexivity. Qed.

Example miss_then_save :
  save_calls (trace (Post.run Demo.miss (Demo.handoff Demo.miss)))
  = [ SaveCache ["/home/runner/.cache/go-build"; "/home/runner/go/pkg/mod"]
                "golang-Linux-1.22.0-build-7b1d1d3b" ].
Proof. vm_compute. reflexivity. Qed.

Example absent_state_warns :
  trace (Post.run Demo.miss ∅)
  = [ Info "Current ref: refs/heads/master"; Info "Cache hit: false";
      Warning "Cache configuration not found in state, skipping save" ].
Proof. vm_compute. reflexivity. Qed.

(** * Further properties of the save phase *)

Lemma In_filter_split_clean (s x : string) :
  In x (JS.filter_Boolean (JS.split_nl s)) -> clean x.
Proof.
  unfold JS.filter_Boolean. intros [Hx Ht]%List.filter_In. split.
  - by apply truthy_ne.
  - by apply (In_split_nl_free s).
Qed.

Lemma filter_split_clean (s : string) :
  Forall clean (JS.filter_Boolean (JS.split_nl s)).
Proof. apply List.Forall_forall. intros x. apply In_filter_split_clean. Qed.

(** The save phase, guard by guard. *)
Lemma post_run_cases (w : World) (st : gmap string string) :
  let key := Post.getState st "cache-key" in
  let paths := Post.getState st "cache-paths" in
  let dirs := JS.filter_Boolean (JS.split_nl paths) in
  let hit := String.eqb (Post.getState st "cache-hit") "true" in
  Post.run w st =
    if negb (String.eqb (context_ref w) "refs/heads/master") then
      ([ Info ("Current ref: " +:+ context_ref w);
         Info "Not on master branch, skipping cache save" ], inr tt)
    else if hit then
      ([ Info ("Current ref: " +:+ context_ref w); Info "Cache hit: true";
         Info "Cache was hit, skipping cache save" ], inr tt)
    else if negb (JS.truthy key) || negb (JS.truthy paths) then
      ([ Info ("Current ref: " +:+ context_ref w); Info "Cache hit: false";
         Warning "Cache configuration not found in state, skipping save" ], inr tt)
    else
      ([ Info ("Current ref: " +:+ context_ref w); Info "Cache hit: false";
         Info ("Saving cache with key: " +:+ key);
         Info ("Cache paths: " +:+ JS.replace_nl ", " paths);
         Info "Saving cache..."; SaveCache dirs key;
         match saveCache w dirs key with
         | Some message => Warning ("Cache save failed: " +:+ message)
         | None => Info "Cache saved successfully"
         end ], inr tt).
Proof.
  cbv zeta. unfold Post.run.
  destruct (negb (String.eqb (context_ref w) "refs/heads/master")); [done|].
  destruct (String.eqb (Post.getState st "cache-hit") "true"); [done|].
  destruct (negb (JS.truthy (Post.getState st "cache-key"))
            || negb (JS.truthy (Post.getState st "cache-paths"))); [done|].
  cbv [attempt bind try_catch emit ret throw app].
  by destruct (saveCache w _ _).
Qed.

(** X1: the save phase calls the save primitive exactly when the ref is
    the primary branch, the persisted cache-hit is not the string true, and
    cache-key and cache-paths are both present; it then calls it once. *)
Theorem save_decision (w : World) (st : gmap string string) :
  (context_ref w = "refs/heads/master" /\
   Post.getState st "cache-hit" <> "true" /\
   Post.getState st "cache-key" <> "" /\
   Post.getState st "cache-paths" <> ""
   <-> save_calls (trace (Post.run w st)) <> []) /\
  (save_calls (trace (Post.run w st)) = [] \/
   save_calls (trace (Post.run w st))
   = [SaveCache (JS.filter_Boolean (JS.split_nl (Post.getState st "cache-paths")))
                (Post.getState st "cache-key")]).
Proof.
  rewrite post_run_cases. cbv zeta.
  destruct (String.eqb_spec (context_ref w) "refs/heads/master") as [Href|Href];
    cbn [negb]; [|split; [split; [by intros (? & _) | done] | by left]].
  destruct (String.eqb_spec (Post.getState st "cache-hit") "true") as [Hhit|Hhit];
    [split; [split; [by intros (_ & ? & _) | done] | by left]|].
  destruct (JS.truthy (Post.getState st "cache-key")) eqn:Hk; cbn [negb orb].
  - destruct (JS.truthy (Post.getState st "cache-paths")) eqn:Hp; cbn [negb].
    + apply truthy_ne in Hk, Hp.
      split; [|right]; by destruct (saveCache w _ _).
    + split; [split; [|done] | by left].
      intros (_ & _ & _ & Hne). apply truthy_ne in Hne. congruence.
  - split; [split; [|done] | by left].
    intros (_ & _ & Hne & _). apply truthy_ne in Hne. congruence.
Qed.

(** X2: on the primary branch, without an exact hit, a session state that
    lacks cache-key or cache-paths makes the save phase log one warning and
    save nothing. *)
Theorem absent_state_skips_save (w : World) (st : gmap string string) :
  context_ref w = "refs/heads/master" ->
  Post.getState st "cache-hit" <> "true" ->
  Post.getState st "cache-key" = "" \/ Post.getState st "cache-paths" = "" ->
  Post.run w st
  = ([ Info "Current ref: refs/heads/master"; Info "Cache hit: false";
       Warning "Cache configuration not found in state, skipping save" ], inr tt).
Proof.
  intros Href Hhit Habsent. rewrite post_run_cases. cbv zeta. rewrite Href.
  destruct (String.eqb_spec (Post.getState st "cache-hit") "true"); [done|].
  by destruct Habsent as [-> | ->]; [|rewrite orb_true_r].
Qed.

Lemma absent_state_skips_save_witness :
  Post.getState {["cache-key" := "golang-Linux-1.22.0-build-7b1d1d3b"]} "cache-paths" = "" /\
  warnings (trace (Post.run Jobs.on_master
                     {["cache-key" := "golang-Linux-1.22.0-build-7b1d1d3b"]}))
  = [Warning "Cache configuration not found in state, skipping save"].
Proof.
  assert (Post.getState {["cache-key" := "golang-Linux-1.22.0-build-7b1d1d3b"]}
                        "cache-paths" = "") as Hpaths by (vm_compute; reflexivity).
  split; [exact Hpaths|].
  rewrite (absent_state_skips_save Jobs.on_master
             {["cache-key" := "golang-Linux-1.22.0-build-7b1d1d3b"]}).
  - reflexivity.
  - reflexivity.
  - vm_compute. discriminate.
  - right. exact Hpaths.
Defined.

(** X3: whatever the session state holds, every directory the save phase
    hands to the save primitive is non-empty and free of line feeds, and so
    is the key. *)
Theorem saved_paths_are_clean (w : World) (st : gmap string string)
    (paths : list string) (key : string) :
  In (SaveCache paths key) (trace (Post.run w st)) ->
  Forall clean paths /\ key <> "" /\ key = Post.getState st "cache-key".
Proof.
  rewrite post_run_cases. cbv zeta.
  repeat match goal with
         | |- context [if ?b then _ else _] => destruct b eqn:?
         end; cbn [trace fst In].
  all: try (intros H; repeat destruct H as [H|H]; done).
  intros [H|[H|[H|[H|[H|[H|[H|[]]]]]]]]; try done.
  - injection H as <- <-. split; [apply filter_split_clean|].
    split; [|done]. apply truthy_ne.
    apply orb_false_elim in Heqb1 as [Hk _]. by apply negb_false_iff in Hk.
  - by destruct (saveCache w _ _).
Qed.

Lemma saved_paths_are_clean_witness :
  Forall clean ["/home/ci"; "runner/.cache/go-build"; "/home/ci"; "runner/go/pkg/mod"].
Proof.
  apply (saved_paths_are_clean Demo.odd (Demo.handoff Demo.odd) _
           "golang-Linux-1.22.0-build-7b1d1d3b").
  vm_compute. tauto.
Defined.

(** * Further properties of the restore phase *)

Lemma run_when_install_throws (w : World) (message : string) :
  outcome (Main.install w) = inl message ->
  Main.run w
  = (trace (Main.install w) ++ [SetFailed ("Action failed: " +:+ message)], inr tt).
Proof.
  unfold Main.run. destruct (Main.install w) as [t r]. cbn. by intros ->.
Qed.

Lemma setup_leaves_no_state (t : list Event) (st : gmap string string) :
  Forall setup_event t -> fold_left record_state t st = st.
Proof.
  intros Ht. revert st. induction Ht as [|e t He _ IH]; intros st; [done|].
  cbn. rewrite <- (IH st) at 2. by destruct e.
Qed.

Lemma run_cases (w : World) :
  (exists message, outcome (Main.install w) = inl message) \/
  (exists wd job ver, outcome (Main.install w) = inr (wd, job, ver)).
Proof.
  destruct (outcome (Main.install w)) as [message|[[wd job] ver]] eqn:E.
  - left. by exists message.
  - right. by exists wd, job, ver.
Qed.

Lemma setup_sets_no_cache_hit (t : list Event) (out : gmap string string) :
  Forall setup_event t -> out !! "cache-hit" = None ->
  fold_left record_output t out !! "cache-hit" = None.
Proof.
  intros Ht. revert out. induction Ht as [|e t He _ IH]; intros out Hout; [done|].
  cbn. apply IH. destruct e; try done. cbn in He. subst. by simplify_map_eq.
Qed.

(** X4: the restore phase fails the job exactly when the set-up of lines
    30 to 116 throws; it then reports that error, attempts no restore and
    writes no session state. *)
Theorem job_fails_iff_setup_throws (w : World) :
  (job_failed (trace (Main.run w)) = true
   <-> exists message, outcome (Main.install w) = inl message) /\
  (forall message, outcome (Main.install w) = inl message ->
     List.last (trace (Main.run w)) (Info "") = SetFailed ("Action failed: " +:+ message) /\
     restore_calls (trace (Main.run w)) = [] /\
     state_of (trace (Main.run w)) = ∅ /\
     outputs_of (trace (Main.run w)) !! "cache-hit" = None).
Proof.
  pose proof (install_emits w) as Hsetup. unfold emits in Hsetup.
  split.
  - destruct (run_cases w) as [[message Hthrown] | (wd & job & ver & Hok)].
    + split; [by exists message|]. intros _.
      rewrite (run_when_install_throws w message Hthrown). cbn [trace fst].
      unfold job_failed. rewrite List.existsb_app. cbn. by rewrite orb_true_r.
    + destruct (run_not_failed w wd job ver Hok) as [-> _].
      split; [done|]. intros [message Hthrown]. congruence.
  - intros message Hthrown.
    rewrite (run_when_install_throws w message Hthrown). cbn [trace fst].
    repeat split.
    + by rewrite List.last_last.
    + unfold restore_calls. rewrite List.filter_app. cbn.
      rewrite (filter_none _ _ _ Hsetup); [done | by intros []].
    + unfold state_of. rewrite fold_left_app. cbn.
      by apply setup_leaves_no_state.
    + unfold outputs_of. rewrite fold_left_app. cbn [fold_left record_output].
      by apply setup_sets_no_cache_hit.
Qed.

Lemma job_fails_iff_setup_throws_witness :
  outcome (Main.install Jobs.no_go_mod) = inl "Go version file not found: /work/go.mod" /\
  job_failed (trace (Main.run Jobs.no_go_mod)) = true /\
  state_of (trace (Main.run Jobs.no_go_mod)) = ∅.
Proof.
  assert (outcome (Main.install Jobs.no_go_mod)
          = inl "Go version file not found: /work/go.mod") as Hthrown
    by (vm_compute; reflexivity).
  destruct (job_fails_iff_setup_throws Jobs.no_go_mod) as [Hiff Hthen].
  split; [exact Hthrown|]. split.
  - apply Hiff. eexists. exact Hthrown.
  - exact (proj1 (proj2 (proj2 (Hthen _ Hthrown)))).
Defined.

(** X5: when the restore phase failed, the save phase of the same job
    finds no session state: on the primary branch it logs the warning and
    saves nothing. *)
Theorem failed_restore_then_no_save (w w' : World) (message : string) :
  outcome (Main.install w) = inl message ->
  context_ref w' = "refs/heads/master" ->
  Post.run w' (state_of (trace (Main.run w)))
  = ([ Info "Current ref: refs/heads/master"; Info "Cache hit: false";
       Warning "Cache configuration not found in state, skipping save" ], inr tt).
Proof.
  intros Hthrown Href.
  pose proof (install_emits w) as Hsetup. unfold emits in Hsetup.
  assert (state_of (trace (Main.run w)) = ∅) as ->.
  { rewrite (run_when_install_throws w message Hthrown). cbn [trace fst].
    unfold state_of. rewrite fold_left_app. cbn. by apply setup_leaves_no_state. }
  rewrite post_run_cases. cbv zeta. by rewrite Href.
Qed.

Lemma failed_restore_then_no_save_witness :
  outcome (Main.install Jobs.bare_go_mod) = inl "Could not find Go version in go.mod" /\
  save_calls (trace (Post.run Jobs.bare_go_mod (Demo.handoff Jobs.bare_go_mod))) = [].
Proof.
  assert (outcome (Main.install Jobs.bare_go_mod)
          = inl "Could not find Go version in go.mod") as Hthrown
    by (vm_compute; reflexivity).
  split; [exact Hthrown|]. unfold Demo.handoff.
  rewrite (failed_restore_then_no_save Jobs.bare_go_mod Jobs.bare_go_mod _ Hthrown eq_refl).
  reflexivity.
Defined.

(** * The set-up of lines 30 to 116 *)

Lemma outcome_if_throw {A} (b : bool) (message : string) (m : M A) (a : A) :
  outcome (if b then throw message else m) = inr a -> b = false /\ outcome m = inr a.
Proof. by destruct b. Qed.

(** Follow a completed computation one step down. *)
Ltac follow H :=
  lazymatch type of H with
  | outcome (bind _ _) = inr _ =>
      let a := fresh "a" in
      let Ha := fresh "Ha" in
      apply outcome_bind_inv in H as (a & Ha & H)
  | outcome (if _ then throw _ else _) = inr _ =>
      let Hb := fresh "Hb" in
      apply outcome_if_throw in H as [Hb H]
  | outcome (match ?x with _ => _ end) = inr _ =>
      destruct x eqn:?; [try discriminate H ..]
  end.

Lemma install_facts (w : World) (wd job ver : string) :
  outcome (Main.install w) = inr (wd, job, ver) ->
  input w "go-version-file" <> "" /\
  wd = JS.or_str (input w "working-directory") "." /\
  job = JS.or_str (input w "job-name") (context_job w) /\
  existsSync w wd = true /\
  existsSync w (path_resolve w [wd; input w "go-version-file"]) = true /\
  is_Some (Main.home w) /\
  exists stdout, getExecOutput w "go" ["version"] = inr stdout /\
                 JS.match_go_version stdout = Some ver.
Proof.
  intros Hok. pose proof (install_needs_home w _ Hok) as Hhome.
  unfold Main.install in Hok. cbv zeta in Hok.
  follow Hok. unfold getInput_required in Ha.
  destruct (JS.truthy (input w "go-version-file")) eqn:Hfile; [|discriminate Ha].
  injection Ha as <-.
  repeat follow Hok.
  injection Hok as <- <- <-.
  repeat match goal with
         | H : negb _ = false |- _ => apply negb_false_iff in H
         end.
  repeat split; try done; [by apply truthy_ne | by eexists].
Qed.


(** * The two regular expressions *)

Lemma substring_all (s : string) : String.substring 0 (String.length s) s = s.
Proof. induction s as [|c s IH]; cbn; [done | by rewrite IH]. Qed.

Lemma strip_prefix_Some (p s r : string) :
  JS.strip_prefix p s = Some r -> s = p +:+ r.
Proof.
  unfold JS.strip_prefix. revert s. induction p as [|c p IH]; intros s.
  - cbn. rewrite Nat.sub_0_r.
    destruct s; cbn; [by intros [= <-] | rewrite substring_all; by intros [= <-]].
  - destruct s as [|c' s]; cbn; [done|].
    destruct (Ascii.ascii_dec c c') as [<-|]; [|done].
    intros H. rewrite app_String. f_equal. by apply IH.
Qed.

Lemma span_version_spec (s : string) :
  s = fst (JS.span_version s) +:+ snd (JS.span_version s) /\
  all_chars JS.is_digit_or_dot (fst (JS.span_version s)) = true /\
  match snd (JS.span_version s) with
  | String c _ => JS.is_digit_or_dot c = false
  | EmptyString => True
  end.
Proof.
  induction s as [|c s (IHs & IHv & IHr)]; [done|].
  cbn [JS.span_version]. destruct (JS.is_digit_or_dot c) eqn:Hc.
  - destruct (JS.span_version s) as [v r]. cbn [fst snd] in *.
    rewrite app_String, <- IHs. cbn. by rewrite Hc.
  - cbn. by rewrite Hc.
Qed.

Lemma go_version_here_Some (s v : string) :
  JS.go_version_here s = Some v ->
  v <> "" /\ all_chars JS.is_digit_or_dot v = true /\
  exists post, s = "go" +:+ v +:+ post /\
               match post with
               | String c _ => JS.is_digit_or_dot c = false
               | EmptyString => True
               end.
Proof.
  unfold JS.go_version_here.
  destruct (JS.strip_prefix "go" s) as [r|] eqn:Hr; [|done].
  apply strip_prefix_Some in Hr as ->.
  destruct (span_version_spec r) as (Hs & Hv & Hpost).
  destruct (JS.span_version r) as [v' post]. cbn [fst snd] in *.
  destruct (JS.truthy v') eqn:Hne; [|done]. intros [= <-].
  split; [by apply truthy_ne|]. split; [done|]. exists post. by rewrite Hs.
Qed.

Lemma go_version_here_None (c : ascii) (post : string) :
  JS.go_version_here ("go" +:+ String c post) = None -> JS.is_digit_or_dot c = false.
Proof.
  unfold JS.go_version_here.
  change (JS.strip_prefix "go" ("go" +:+ String c post))
    with (Some (String.substring 0 (String.length (String c post)) (String c post))).
  rewrite substring_all. cbn [JS.span_version].
  destruct (JS.is_digit_or_dot c); [|done].
  by destruct (JS.span_version post).
Qed.

Lemma match_go_version_Some (s v : string) :
  JS.match_go_version s = Some v ->
  v <> "" /\ all_chars JS.is_digit_or_dot v = true /\
  exists pre post, s = pre +:+ "go" +:+ v +:+ post /\
                   match post with
                   | String c _ => JS.is_digit_or_dot c = false
                   | EmptyString => True
                   end.
Proof.
  revert v. induction s as [|a s IH]; intros v; [done|].
  cbn [JS.match_go_version].
  destruct (JS.go_version_here (String a s)) as [v'|] eqn:Hhere.
  - intros [= <-]. apply go_version_here_Some in Hhere as (? & ? & post & ? & ?).
    repeat split; try done. by exists "", post.
  - intros (? & ? & pre & post & -> & ?)%IH.
    repeat split; try done. by exists (String a pre), post.
Qed.

Lemma match_go_version_None (s : string) :
  JS.match_go_version s = None ->
  forall pre c post, s = pre +:+ "go" +:+ String c post ->
                     JS.is_digit_or_dot c = false.
Proof.
  induction s as [|a s IH]; intros Hnone pre c post Hs.
  - by destruct pre.
  - cbn [JS.match_go_version] in Hnone.
    destruct (JS.go_version_here (String a s)) as [v'|] eqn:Hhere; [done|].
    destruct pre as [|a' pre].
    + rewrite Hs in Hhere. by apply go_version_here_None in Hhere.
    + rewrite app_String in Hs. injection Hs as _ Hs.
      by apply (IH Hnone pre c post).
Qed.

Lemma go_directive_here_Some (s v : string) :
  JS.go_directive_here s = Some v ->
  v <> "" /\ all_chars JS.is_digit_or_dot v = true.
Proof.
  unfold JS.go_directive_here.
  destruct (JS.strip_prefix "go" s) as [r|]; [|done].
  destruct (String.length (JS.skip_ws r) <? String.length r)%nat; [|done].
  destruct (span_version_spec (JS.skip_ws r)) as (_ & Hv & _).
  destruct (JS.span_version (JS.skip_ws r)) as [v' post]. cbn [fst] in Hv.
  destruct (JS.truthy v') eqn:Hne; [|done]. intros [= <-].
  split; [by apply truthy_ne | done].
Qed.

Lemma scan_go_directive_Some (bol : bool) (p3 p2 : ascii) (s v : string) :
  JS.scan_go_directive bol p3 p2 s = Some v ->
  v <> "" /\ all_chars JS.is_digit_or_dot v = true.
Proof.
  revert bol p3 p2. induction s as [|c s IH]; intros bol p3 p2; cbn [JS.scan_go_directive].
  - destruct bol; [|done].
    destruct (JS.go_directive_here "") eqn:E; [|done].
    intros [= <-]. by apply (go_directive_here_Some "").
  - destruct (if bol then JS.go_directive_here (String c s) else None) as [v'|] eqn:E.
    + intros [= <-]. destruct bol; [|done]. by apply (go_directive_here_Some (String c s)).
    + apply IH.
Qed.

Lemma all_digit_or_dot_nl_free (v : string) :
  all_chars JS.is_digit_or_dot v = true -> JS.nl_free v = true.
Proof.
  induction v as [|c v IH]; [done|]. cbn.
  intros [Hc Hv]%andb_prop. rewrite IH by done. rewrite andb_true_r.
  destruct (Ascii.eqb_spec c JS.LF) as [->|]; [|done]. done.
Qed.

Lemma installed_version_clean (w : World) (wd job ver : string) :
  outcome (Main.install w) = inr (wd, job, ver) ->
  ver <> "" /\ all_chars JS.is_digit_or_dot ver = true /\ JS.nl_free ver = true.
Proof.
  intros Hok.
  destruct (install_facts w wd job ver Hok) as (_ & _ & _ & _ & _ & _ & stdout & _ & Hver).
  apply match_go_version_Some in Hver as (Hne & Hall & _).
  repeat split; try done. by apply all_digit_or_dot_nl_free.
Qed.

(** * What the set-up runs *)


Lemma log_is_cache_event (e : Event) : log_event e -> cache_event e.
Proof. by destruct e. Qed.

(** The trace of the restore phase is the trace of the set-up followed by
    events of the cache step or by the failure signal. *)
Lemma run_trace_split (w : World) :
  exists rest : list Event,
    trace (Main.run w) = trace (Main.install w) ++ rest /\ Forall cache_event rest.
Proof.
  destruct (run_cases w) as [[message Hthrown] | (wd & job & ver & Hok)].
  - rewrite (run_when_install_throws w message Hthrown). eexists. split; [done|].
    by repeat constructor.
  - destruct (cacheStep_shape w wd job ver) as (pre & Hpre & Hstep).
    { by apply (install_needs_home w (wd, job, ver)). }
    unfold Main.run. destruct (Main.install w) as [t r]. cbn in Hok. subst r.
    cbv [bind try_catch]. rewrite Hstep. cbn [trace fst]. eexists. split; [done|].
    apply Forall_app. split; [by eapply Forall_impl; [|apply log_is_cache_event]|].
    constructor; [done|]. apply Forall_app. split.
    + eapply Forall_impl; [apply restore_log_events | apply log_is_cache_event].
    + by repeat constructor.
Qed.

(** An event of the restore phase that the cache step cannot emit comes
    from the set-up. *)
Lemma setup_only_event (w : World) (e : Event) :
  In e (trace (Main.run w)) -> ~ cache_event e -> In e (trace (Main.install w)).
Proof.
  destruct (run_trace_split w) as (rest & -> & Hrest).
  intros [He|He]%in_app_or Hno; [done|].
  rewrite List.Forall_forall in Hrest. by apply Hrest in He.
Qed.








(** * A set-up that completes *)

Section when_done.
Context (P : Event -> Prop).

Lemma ewd_ret {A} (a : A) : emits_when_done P (ret a).
Proof. intros ? _. constructor. Qed.

Lemma ewd_throw {A} (message : string) : emits_when_done P (@throw A message).
Proof. intros ? ?. done. Qed.

Lemma ewd_emit (e : Event) : P e -> emits_when_done P (emit e).
Proof. intros He ? _. by repeat constructor. Qed.

Lemma ewd_attempt (e : Event) (failure : option string) :
  (failure = None -> P e) -> emits_when_done P (attempt e failure).
Proof.
  intros He a. destruct failure as [message|]; [done|].
  intros _. cbn. repeat constructor. by apply He.
Qed.

Lemma ewd_bind {A B} (m : M A) (f : A -> M B) :
  emits_when_done P m -> (forall a, emits_when_done P (f a)) ->
  emits_when_done P (bind m f).
Proof.
  intros Hm Hf b Hb.
  destruct (outcome_bind_inv m f b Hb) as (a & Ha & Hfa).
  unfold emits_when_done in *.
  specialize (Hm a Ha). specialize (Hf a b Hfa).
  destruct m as [t r]. cbn in Ha. subst r. unfold bind.
  destruct (f a) as [t' r']. cbn in *. by apply Forall_app.
Qed.

End when_done.

Lemma ewd_readFile (w : World) (p : string) :
  emits_when_done (answered w) (readFile_utf8 w p).
Proof.
  unfold readFile_utf8. intros a.
  destruct (readFileSync w p) as [message|raw] eqn:Hread; [done|].
  intros _. cbn. repeat constructor. by exists raw.
Qed.

Lemma ewd_go_version {A} (w : World) (k : string -> M A) :
  (forall stdout, emits_when_done (answered w) (k stdout)) ->
  emits_when_done (answered w)
    (bind (emit (Exec "go" ["version"]))
          (fun _ => match getExecOutput w "go" ["version"] with
                    | inl message => throw message
                    | inr stdout => k stdout
                    end)).
Proof.
  intros Hk. destruct (getExecOutput w "go" ["version"]) as [message|stdout] eqn:Hgo.
  - intros a. done.
  - apply ewd_bind; [|intros _; apply Hk].
    apply ewd_emit. cbn. by exists stdout.
Qed.

Lemma install_answered (w : World) : emits_when_done (answered w) (Main.install w).
Proof.
  unfold Main.install, getInput_required, path_join_from. cbv zeta.
  destruct (String.eqb (platform w) "win32");
    cbn [String.eqb Ascii.eqb Bool.eqb fst snd].
  all: repeat first
    [ apply ewd_ret
    | apply ewd_throw
    | apply ewd_readFile
    | apply ewd_go_version; intros ?
    | apply ewd_emit; cbn; done
    | apply ewd_attempt; cbn; done
    | apply ewd_bind; [|intros ?]
    | match goal with
      | |- emits_when_done _ (if ?b then _ else _) => destruct b
      | |- emits_when_done _ (match ?x with _ => _ end) => destruct x
      end ].
Qed.

Lemma run_failed_when_throws (w : World) (message : string) :
  outcome (Main.install w) = inl message ->
  job_failed (trace (Main.run w)) = true /\
  restore_calls (trace (Main.run w)) = [] /\
  state_of (trace (Main.run w)) = ∅.
Proof.
  intros Hthrown. pose proof (install_emits w) as Hsetup. unfold emits in Hsetup.
  rewrite (run_when_install_throws w message Hthrown). cbn [trace fst].
  repeat split.
  - unfold job_failed. rewrite List.existsb_app. cbn. by rewrite orb_true_r.
  - unfold restore_calls. rewrite List.filter_app. cbn.
    rewrite (filter_none _ _ _ Hsetup); [done | by intros []].
  - unfold state_of. rewrite fold_left_app. cbn. by apply setup_leaves_no_state.
Qed.

(** X11: a command or a file-system call of the set-up that fails (curl,
    tar, unzip, mv, go version, mkdir, unlink) fails the job, and no
    restore is attempted. *)
Theorem failed_step_fails_job (w : World) (e : Event) :
  In e (trace (Main.run w)) ->
  download_event e = true \/ e = Exec "go" ["version"] ->
  ~ answered w e ->
  job_failed (trace (Main.run w)) = true /\ restore_calls (trace (Main.run w)) = [].
Proof.
  intros Hin Hkind Hfailed.
  destruct (run_cases w) as [[message Hthrown] | (wd & job & ver & Hok)].
  - destruct (run_failed_when_throws w message Hthrown) as (? & ? & _). done.
  - exfalso. apply Hfailed.
    apply setup_only_event in Hin.
    + pose proof (install_answered w _ Hok) as Hall.
      rewrite List.Forall_forall in Hall. by apply Hall.
    + destruct Hkind as [Hd| ->]; [|tauto].
      destruct e; cbn in Hd |- *; (discriminate Hd || tauto).
Qed.

Lemma failed_step_fails_job_witness :
  In (Exec "curl" ["-L"; "-o"; "/tmp/go1.22.tar.gz";
                   "https://dl.google.com/go/go1.22.linux-amd64.tar.gz"])
     (trace (Main.run Jobs.offline)) /\
  job_failed (trace (Main.run Jobs.offline)) = true.
Proof.
  assert (In (Exec "curl" ["-L"; "-o"; "/tmp/go1.22.tar.gz";
                           "https://dl.google.com/go/go1.22.linux-amd64.tar.gz"])
             (trace (Main.run Jobs.offline))) as Hin by (vm_compute; tauto).
  split; [exact Hin|].
  apply (failed_step_fails_job Jobs.offline _ Hin).
  - left. reflexivity.
  - vm_compute. discriminate.
Defined.

(** * Rejected inputs *)



(** * The key list, in general *)

Lemma prefix_app (a b : string) : String.prefix a (a +:+ b) = true.
Proof.
  induction a as [|c a IH]; [by destruct b|].
  rewrite app_String. cbn. by destruct (Ascii.ascii_dec c c).
Qed.

Lemma prefix_app_both (c a b : string) :
  String.prefix a b = true -> String.prefix (c +:+ a) (c +:+ b) = true.
Proof.
  intros Hab. induction c as [|x c IH]; [done|].
  rewrite !app_String. cbn. by destruct (Ascii.ascii_dec x x).
Qed.

Lemma primaryKey_nl_free (r v j h : string) :
  JS.nl_free (Main.primaryKey r v j h) = true
  <-> JS.nl_free r = true /\ JS.nl_free v = true /\ JS.nl_free j = true
      /\ JS.nl_free h = true.
Proof.
  unfold Main.primaryKey. rewrite !nl_free_app. cbn [JS.nl_free].
  cbn. rewrite !andb_true_iff. tauto.
Qed.

(** X13: when no component contains a line feed, the restore key list has
    four keys, the primary key first, and each key after the first is a
    strictly shorter prefix of the key before it. *)
Theorem restore_keys_shrink (r v j h : string) :
  JS.nl_free r = true -> JS.nl_free v = true ->
  JS.nl_free j = true -> JS.nl_free h = true ->
  let keys := Main.restoreKeysArray r v j h in
  length keys = 4 /\
  keys !! 0 = Some (Main.primaryKey r v j h) /\
  keys !! 3 = Some ("golang-" +:+ r) /\
  forall i a b, keys !! i = Some a -> keys !! S i = Some b ->
    String.prefix b a = true /\ String.length b < String.length a.
Proof.
  intros Hr Hv Hj Hh keys. subst keys.
  rewrite keys_split_when_nl_free by (by apply primaryKey_nl_free).
  split; [done|]. split; [done|]. split; [done|].
  intros i a b Ha Hb.
  destruct i as [|[|[|i]]]; cbn in Ha, Hb; try done;
    injection Ha as <-; injection Hb as <-; unfold Main.primaryKey; split.
  all: try (rewrite !length_app; cbn; lia).
  all: repeat (apply prefix_app_both); apply prefix_app.
Qed.

Lemma restore_keys_shrink_witness :
  length (Main.restoreKeysArray "Linux" "1.22.0" "lint" "missing") = 4.
Proof.
  exact (proj1 (restore_keys_shrink "Linux" "1.22.0" "lint" "missing"
                  eq_refl eq_refl eq_refl eq_refl)).
Defined.

(** X14: the primary key is in the restore key list exactly when no
    component of the key contains a line feed; a job name with a line feed
    yields a list without the primary key. *)
Theorem primary_key_listed_iff (r v j h : string) :
  (In (Main.primaryKey r v j h) (Main.restoreKeysArray r v j h)
   <-> JS.nl_free r = true /\ JS.nl_free v = true /\ JS.nl_free j = true
       /\ JS.nl_free h = true) /\
  (In (Main.primaryKey r v j h) (Main.restoreKeysArray r v j h)
   <-> Main.restoreKeysArray r v j h !! 0 = Some (Main.primaryKey r v j h)).
Proof.
  assert (In (Main.primaryKey r v j h) (Main.restoreKeysArray r v j h)
          -> JS.nl_free (Main.primaryKey r v j h) = true) as Hfree.
  { unfold Main.restoreKeysArray, JS.filter_Boolean.
    intros [Hin _]%List.filter_In. by apply In_split_nl_free in Hin. }
  split; split.
  - intros Hin%Hfree. by apply primaryKey_nl_free.
  - intros Hall%primaryKey_nl_free. rewrite keys_split_when_nl_free by done. by left.
  - intros Hin%Hfree. by rewrite keys_split_when_nl_free.
  - intros Hk. apply list_elem_of_In. by eapply list_elem_of_lookup_2.
Qed.

(** X15: every key of the restore key list handed to the restore
    primitive is non-empty and free of line feeds, whatever the inputs. *)
Theorem restore_keys_are_clean (w : World) (paths keys : list string) (key : string) :
  In (RestoreCache paths key keys) (trace (Main.run w)) ->
  Forall clean keys /\ key <> "".
Proof.
  intros Hin.
  destruct (run_cases w) as [[message Hthrown] | (wd & job & ver & Hok)].
  - destruct (run_failed_when_throws w message Hthrown) as (_ & Hnone & _).
    assert (In (RestoreCache paths key keys) (restore_calls (trace (Main.run w)))) as H
      by (by apply List.filter_In).
    by rewrite Hnone in H.
  - assert (In (RestoreCache paths key keys) (restore_calls (trace (Main.run w)))) as H
      by (by apply List.filter_In).
    rewrite (run_restore_calls w wd job ver Hok) in H.
    destruct H as [[= <- <- <-]|[]]. split.
    + apply filter_split_clean.
    + unfold Main.cacheKey, Main.primaryKey. apply truthy_ne. by apply truthy_app_l.
Qed.

Lemma restore_keys_are_clean_witness :
  Forall clean ["golang-Linux-1.22.0-build-7b1d1d3b"; "golang-Linux-1.22.0-build";
                "golang-Linux-1.22.0"; "golang-Linux"].
Proof.
  apply (restore_keys_are_clean Demo.miss
           ["/home/runner/.cache/go-build"; "/home/runner/go/pkg/mod"] _
           "golang-Linux-1.22.0-build-7b1d1d3b").
  vm_compute. tauto.
Defined.

(** * The shape of the content fingerprint *)

Lemma be_bytes_length (n : nat) (x : Z) : length (SHA256.be_bytes n x) = n.
Proof. unfold SHA256.be_bytes. by rewrite List.length_map, List.length_rev, List.length_seq. Qed.

Lemma be_bytes_range (n : nat) (x : Z) :
  Forall (fun b => 0 <= b < 256)%Z (SHA256.be_bytes n x).
Proof.
  unfold SHA256.be_bytes. apply List.Forall_forall. intros b Hb.
  apply List.in_map_iff in Hb as (i & <- & _). by apply Z.mod_pos_bound.
Qed.

Lemma compress_length (h block : list Z) :
  length h = 8 -> length (SHA256.compress h block) = 8.
Proof.
  intros Hh. unfold SHA256.compress.
  rewrite List.length_map, List.length_combine, Hh. reflexivity.
Qed.

Lemma digest_length (msg : list Z) : length (SHA256.digest msg) = 32.
Proof.
  unfold SHA256.digest.
  set (blocks := SHA256.chunks _ _).
  assert (length (fold_left SHA256.compress blocks SHA256.H0) = 8) as Hh.
  { assert (length SHA256.H0 = 8) as H0 by reflexivity.
    revert H0. generalize SHA256.H0. generalize blocks. clear.
    intros blocks. induction blocks as [|b blocks IH]; intros h Hh; [done|].
    cbn. apply IH. by apply compress_length. }
  revert Hh. generalize (fold_left SHA256.compress blocks SHA256.H0). clear.
  intros h Hh.
  assert (length (flat_map (SHA256.be_bytes 4) h) = 4 * length h) as ->; [|lia].
  clear Hh. induction h as [|x h IH]; [done|].
  cbn [flat_map]. rewrite List.length_app, be_bytes_length, IH. cbn. lia.
Qed.

Lemma digest_range (msg : list Z) :
  Forall (fun b => 0 <= b < 256)%Z (SHA256.digest msg).
Proof.
  unfold SHA256.digest. generalize (fold_left SHA256.compress
    (SHA256.chunks (length (SHA256.be_words (SHA256.pad msg)))
                   (SHA256.be_words (SHA256.pad msg))) SHA256.H0).
  intros h. induction h as [|x h IH]; [constructor|].
  cbn [flat_map]. apply Forall_app. split; [apply be_bytes_range | done].
Qed.

Lemma hex_digit_lower (n : Z) : (0 <= n < 16)%Z -> is_lower_hex (hex_digit n) = true.
Proof.
  intros Hn. unfold hex_digit.
  assert (Z.to_nat n < 16) as Hk by lia. clear Hn.
  generalize dependent (Z.to_nat n). intros k Hk.
  do 16 (destruct k as [|k]; [reflexivity|]). lia.
Qed.

Lemma hex_length (bs : list Z) : String.length (hex bs) = 2 * length bs.
Proof. induction bs as [|b bs IH]; [done|]. cbn. rewrite IH. lia. Qed.

Lemma hex_lower (bs : list Z) :
  Forall (fun b => 0 <= b < 256)%Z bs -> all_chars is_lower_hex (hex bs) = true.
Proof.
  induction 1 as [|b bs Hb _ IH]; [done|].
  cbn [hex all_chars]. rewrite IH.
  rewrite !hex_digit_lower; [done | | ]; lia.
Qed.

Lemma substring0_length (n : nat) (s : string) :
  n <= String.length s -> String.length (JS.substring0 n s) = n.
Proof.
  unfold JS.substring0. revert s. induction n as [|n IH]; intros s Hn.
  - by destruct s.
  - destruct s as [|c s]; cbn in Hn; [lia|]. cbn. rewrite IH; [done | lia].
Qed.

Lemma substring0_all (P : ascii -> bool) (n : nat) (s : string) :
  all_chars P s = true -> all_chars P (JS.substring0 n s) = true.
Proof.
  unfold JS.substring0. revert s. induction n as [|n IH]; intros s Hs.
  - by destruct s.
  - destruct s as [|c s]; [done|]. cbn in Hs |- *.
    apply andb_prop in Hs as [-> Hs]. by apply IH.
Qed.

Lemma lower_hex_nl_free (s : string) :
  all_chars is_lower_hex s = true -> JS.nl_free s = true.
Proof.
  induction s as [|c s IH]; [done|]. cbn.
  intros [Hc Hs]%andb_prop. rewrite IH by done. rewrite andb_true_r.
  destruct (Ascii.eqb_spec c JS.LF) as [->|]; [|done]. done.
Qed.

Lemma fingerprint_shape (bs : list byte) :
  String.length (JS.substring0 8 (sha256_hex bs)) = 8 /\
  all_chars is_lower_hex (JS.substring0 8 (sha256_hex bs)) = true.
Proof.
  unfold sha256_hex. split.
  - apply substring0_length. rewrite hex_length, digest_length. lia.
  - apply substring0_all, hex_lower, digest_range.
Qed.

(** X16: the content fingerprint is always a value, never a thrown
    error: eight lowercase hexadecimal characters for a readable file, and
    the word missing, which is no such string, exactly for an unreadable
    one; in both cases it contains no line feed. *)
Theorem contentHash_format (w : World) (p : string) :
  exists h, outcome (Main.getFileHash w p) = inr h /\
            JS.nl_free h = true /\
            ((exists raw, readFileSync w p = inr raw) ->
             String.length h = 8 /\ all_chars is_lower_hex h = true) /\
            (h = "missing" <-> exists message, readFileSync w p = inl message).
Proof.
  destruct (readFileSync w p) as [message|raw] eqn:Hread.
  - exists "missing". unfold Main.getFileHash, readFile_utf8. rewrite Hread.
    split; [done|]. split; [done|]. split; [by intros [raw ?]|].
    split; [intros _; by exists message | done].
  - rewrite (getFileHash_readable w p raw Hread). eexists. split; [done|].
    destruct (fingerprint_shape (utf8_encode (utf8_decode raw))) as [Hlen Hhex].
    split; [by apply lower_hex_nl_free|]. split; [done|].
    split; [|by intros [message ?]].
    intros Hm. rewrite Hm in Hlen. done.
Qed.

(** * The two phases of one job *)

Lemma cacheHit_true_iff (w : World) (wd job ver : string) :
  Main.cacheHit w wd job ver = true
  <-> Main.restored w wd job ver = inr (Some (Main.cacheKey w wd job ver)).
Proof.
  unfold Main.cacheHit. destruct (Main.restored w wd job ver) as [msg|[k|]]; cbn.
  - split; done.
  - rewrite String.eqb_eq. split; [by intros -> | by intros [= ->]].
  - split; done.
Qed.

Lemma handoff_state (w : World) (wd job ver : string) :
  outcome (Main.install w) = inr (wd, job, ver) ->
  let st := state_of (trace (Main.run w)) in
  Post.getState st "cache-key" = Main.cacheKey w wd job ver /\
  Post.getState st "cache-paths" = JS.join_nl (Main.cachePaths w) /\
  Post.getState st "cache-hit" = JS.bool_toString (Main.cacheHit w wd job ver).
Proof.
  intros Hok st. destruct (run_state w wd job ver Hok) as (Hkey & Hpaths & Hhit).
  subst st. unfold Post.getState. by rewrite Hkey, Hpaths, Hhit.
Qed.

Lemma cacheKey_not_empty (w : World) (wd job ver : string) :
  Main.cacheKey w wd job ver <> "".
Proof. unfold Main.cacheKey, Main.primaryKey. apply truthy_ne. by apply truthy_app_l. Qed.

(** X17: when the restore phase did not find the primary key (a fallback
    key, nothing, or a store error) and the two payload directories are
    non-empty and free of line feeds, the save phase of that job, on the
    primary branch, saves once: the directories and the primary key that
    the restore call was made with. *)
Theorem restore_miss_then_save (w w' : World) (wd job ver : string) :
  outcome (Main.install w) = inr (wd, job, ver) ->
  Main.restored w wd job ver <> inr (Some (Main.cacheKey w wd job ver)) ->
  Forall clean (Main.cachePaths w) ->
  context_ref w' = "refs/heads/master" ->
  restore_calls (trace (Main.run w))
  = [RestoreCache (Main.cachePaths w) (Main.cacheKey w wd job ver)
                  (Main.restoreKeys w wd job ver)] /\
  save_calls (trace (Post.run w' (state_of (trace (Main.run w)))))
  = [SaveCache (Main.cachePaths w) (Main.cacheKey w wd job ver)].
Proof.
  intros Hok Hmiss Hclean Href. split; [by apply run_restore_calls|].
  destruct (handoff_state w wd job ver Hok) as (Hkey & Hpaths & Hhit).
  assert (Main.cacheHit w wd job ver = false) as Hfalse.
  { destruct (Main.cacheHit w wd job ver) eqn:E; [|done].
    by apply cacheHit_true_iff in E. }
  rewrite Hfalse in Hhit.
  assert (Main.cachePaths w <> []) as Hne.
  { destruct (install_needs_home w _ Hok) as [h Hh]. unfold Main.cachePaths. by rewrite Hh. }
  assert (JS.join_nl (Main.cachePaths w) <> "") as Hjoin.
  { destruct (Main.cachePaths w) as [|a l]; [done|].
    apply Forall_cons in Hclean as [[Ha _] _].
    apply truthy_ne. destruct l; cbn; [by apply truthy_ne|].
    apply truthy_app_l. by apply truthy_ne. }
  rewrite (save_path w' _ (Main.cacheKey w wd job ver) (JS.join_nl (Main.cachePaths w))
             Href Hhit Hkey (cacheKey_not_empty w wd job ver) Hpaths Hjoin).
  rewrite split_join_nl;
    [|done|eapply Forall_impl; [done | by intros ? [_ ?]]].
  rewrite filter_Boolean_id; [done|].
  eapply Forall_impl; [done|]. intros d [Hd _]. by apply truthy_ne.
Qed.

Lemma restore_miss_then_save_witness :
  Main.restored Demo.fallback "." "build" "1.22.0" = inr (Some "golang-Linux-1.22.0-build") /\
  save_calls (trace (Post.run Demo.fallback (Demo.handoff Demo.fallback)))
  = [ SaveCache ["/home/runner/.cache/go-build"; "/home/runner/go/pkg/mod"]
                "golang-Linux-1.22.0-build-7b1d1d3b" ].
Proof.
  assert (outcome (Main.install Demo.fallback) = inr (".", "build", "1.22.0")) as Hok
    by (vm_compute; reflexivity).
  assert (Main.restored Demo.fallback "." "build" "1.22.0"
          = inr (Some "golang-Linux-1.22.0-build")) as Hrestored
    by (vm_compute; reflexivity).
  split; [exact Hrestored|].
  refine (eq_trans (proj2 (restore_miss_then_save Demo.fallback Demo.fallback
                             "." "build" "1.22.0" Hok _ _ eq_refl)) _).
  - rewrite Hrestored. vm_compute. discriminate.
  - vm_compute. repeat constructor; discriminate.
  - vm_compute. reflexivity.
Defined.

(** X18: when the restore phase found the primary key, the save phase of
    that job saves nothing, on every branch. *)
Theorem exact_hit_then_no_save (w w' : World) (wd job ver : string) :
  outcome (Main.install w) = inr (wd, job, ver) ->
  Main.restored w wd job ver = inr (Some (Main.cacheKey w wd job ver)) ->
  save_calls (trace (Post.run w' (state_of (trace (Main.run w))))) = [] /\
  warnings (trace (Post.run w' (state_of (trace (Main.run w))))) = [].
Proof.
  intros Hok Hexact.
  destruct (handoff_state w wd job ver Hok) as (_ & _ & Hhit).
  apply cacheHit_true_iff in Hexact. rewrite Hexact in Hhit.
  rewrite post_run_cases. cbv zeta. rewrite Hhit.
  by destruct (negb (String.eqb (context_ref w') "refs/heads/master")).
Qed.

Lemma exact_hit_then_no_save_witness :
  Main.restored Demo.exact "." "build" "1.22.0"
  = inr (Some (Main.cacheKey Demo.exact "." "build" "1.22.0")) /\
  save_calls (trace (Post.run Demo.exact (Demo.handoff Demo.exact))) = [].
Proof.
  assert (outcome (Main.install Demo.exact) = inr (".", "build", "1.22.0")) as Hok
    by (vm_compute; reflexivity).
  assert (Main.restored Demo.exact "." "build" "1.22.0"
          = inr (Some (Main.cacheKey Demo.exact "." "build" "1.22.0"))) as Hexact
    by (vm_compute; reflexivity).
  split; [exact Hexact|].
  exact (proj1 (exact_hit_then_no_save Demo.exact Demo.exact "." "build" "1.22.0"
                  Hok Hexact)).
Defined.

(** X19: the restore phase logs hit for every non-empty key the store
    returns, also for a fallback key, for which the cache-hit output is
    false; it logs miss when the store returns nothing. *)
Theorem restore_log_reports_any_key (w : World) (wd job ver : string) :
  outcome (Main.install w) = inr (wd, job, ver) ->
  (forall k, Main.restored w wd job ver = inr (Some k) -> k <> "" ->
     In (Info "Cache restore result: hit") (trace (Main.run w)) /\
     In (Info ("Restored cache key: " +:+ k)) (trace (Main.run w)) /\
     (k <> Main.cacheKey w wd job ver ->
      outputs_of (trace (Main.run w)) !! "cache-hit" = Some "false")) /\
  (Main.restored w wd job ver = inr None ->
   In (Info "Cache restore result: miss") (trace (Main.run w)) /\
   outputs_of (trace (Main.run w)) !! "cache-hit" = Some "false").
Proof.
  intros Hok. pose proof (run_output w wd job ver Hok) as Hout.
  destruct (run_shape w wd job ver Hok) as (pre & _ & Hrun).
  assert (forall e, In e (Main.restore_log w wd job ver) -> In e (trace (Main.run w)))
    as Hlog.
  { intros e He. rewrite Hrun. cbn [trace fst].
    apply in_or_app. right. right. apply in_or_app. by left. }
  split.
  - intros k Hk Hne. apply truthy_ne in Hne.
    repeat split.
    + apply Hlog. unfold Main.restore_log. rewrite Hk. cbn. rewrite Hne. by left.
    + apply Hlog. unfold Main.restore_log. rewrite Hk. cbn. rewrite Hne. right. by left.
    + intros Hother. rewrite Hout. unfold Main.cacheHit. rewrite Hk. cbn.
      apply String.eqb_neq in Hother. by rewrite Hother.
  - intros Hnone. split.
    + apply Hlog. unfold Main.restore_log. rewrite Hnone. by left.
    + rewrite Hout. unfold Main.cacheHit. by rewrite Hnone.
Qed.

Lemma restore_log_reports_any_key_witness :
  In (Info "Cache restore result: hit") (trace (Main.run Demo.fallback)) /\
  outputs_of (trace (Main.run Demo.fallback)) !! "cache-hit" = Some "false".
Proof.
  assert (outcome (Main.install Demo.fallback) = inr (".", "build", "1.22.0")) as Hok
    by (vm_compute; reflexivity).
  assert (Main.restored Demo.fallback "." "build" "1.22.0"
          = inr (Some "golang-Linux-1.22.0-build")) as Hrestored
    by (vm_compute; reflexivity).
  destruct (proj1 (restore_log_reports_any_key Demo.fallback "." "build" "1.22.0" Hok)
              "golang-Linux-1.22.0-build" Hrestored) as (Hhit & _ & Hout).
  - discriminate.
  - split; [exact Hhit|]. apply Hout. vm_compute. discriminate.
Defined.

(** X20: the restore phase never calls the save primitive; the save phase
    only logs and saves: it reads no file, runs no command, writes no
    session state, sets no output and never signals failure. *)
Theorem phases_keep_to_their_role (w : World) (st : gmap string string) :
  Forall (fun e => is_SaveCache e = false) (trace (Main.run w)) /\
  Forall post_event (trace (Post.run w st)).
Proof.
  split.
  - destruct (run_trace_split w) as (rest & -> & Hrest).
    apply Forall_app. split.
    + eapply Forall_impl; [apply install_emits|]. by intros [].
    + eapply Forall_impl; [done|]. by intros [].
  - rewrite post_run_cases. cbv zeta.
    repeat match goal with
           | |- context [if ?b then _ else _] => destruct b
           end; cbn [trace fst]; repeat constructor.
    by destruct (saveCache w _ _).
Qed.

(** X6: when the set-up completes, the version file input was supplied,
    the working directory and the job name are the inputs or their
    defaults, the working directory and the version file exist, the home
    directory is known, and the version is the one [go version] printed. *)
Theorem setup_postcondition (w : World) (wd job ver : string) :
  outcome (Main.install w) = inr (wd, job, ver) ->
  input w "go-version-file" <> "" /\
  wd = JS.or_str (input w "working-directory") "." /\
  job = JS.or_str (input w "job-name") (context_job w) /\
  existsSync w wd = true /\
  existsSync w (path_resolve w [wd; input w "go-version-file"]) = true /\
  is_Some (Main.home w) /\
  exists stdout, getExecOutput w "go" ["version"] = inr stdout /\
                 JS.match_go_version stdout = Some ver.
Proof. apply install_facts. Qed.

Lemma setup_postcondition_witness :
  outcome (Main.install Demo.fresh) = inr (".", "build", "1.22.0") /\
  existsSync Demo.fresh "." = true /\
  JS.match_go_version "go version go1.22.0 linux/amd64" = Some "1.22.0".
Proof.
  assert (outcome (Main.install Demo.fresh) = inr (".", "build", "1.22.0")) as Hok
    by (vm_compute; reflexivity).
  split; [exact Hok|].
  destruct (setup_postcondition Demo.fresh "." "build" "1.22.0" Hok)
    as (_ & _ & _ & Hwd & _ & _ & stdout & Hout & Hver).
  split; [exact Hwd|]. injection Hout as <-. exact Hver.
Defined.

(** X7: [/go([0-9.]+)/] as line 110 uses it.  A match is a non-empty run
    of digits and dots that follows an occurrence of go and is not followed
    by a digit or a dot; there is no match only when no occurrence of go is
    followed by a digit or a dot. *)
Theorem match_go_version_spec (s : string) :
  (forall v, JS.match_go_version s = Some v ->
     v <> "" /\ all_chars JS.is_digit_or_dot v = true /\
     exists pre post, s = pre +:+ "go" +:+ v +:+ post /\
                      match post with
                      | String c _ => JS.is_digit_or_dot c = false
                      | EmptyString => True
                      end) /\
  (JS.match_go_version s = None ->
   forall pre c post, s = pre +:+ "go" +:+ String c post ->
                      JS.is_digit_or_dot c = false).
Proof.
  split; [intros v; apply match_go_version_Some | apply match_go_version_None].
Qed.

(** X8: the Go version of a run that completes its set-up is a non-empty
    string of digits and dots, and so is every version the go directive
    pattern of line 59 extracts from a version file. *)
Theorem versions_are_digits_and_dots :
  (forall (w : World) (wd job ver : string),
     outcome (Main.install w) = inr (wd, job, ver) ->
     ver <> "" /\ all_chars JS.is_digit_or_dot ver = true /\ JS.nl_free ver = true) /\
  (forall content v : string,
     JS.match_go_directive content = Some v ->
     v <> "" /\ all_chars JS.is_digit_or_dot v = true).
Proof.
  split; [apply installed_version_clean|].
  intros content v. apply scan_go_directive_Some.
Qed.
